(** * Gemma3nService: the simulated on-device inference service

    A shallow embedding of [Gemma3nService] (services/gemma3nService.ts):
    the platform resolver, the lifecycle (initializeModel / unloadModel),
    the canned text generator, the word-by-word stream and the chat
    template.

    Conventions of the model.
    - A JavaScript string is a [string], one [ascii] per code unit: the
      model covers text whose code units are below 256 (ASCII and
      Latin-1).
    - A thrown value is an [exn]; a call that may throw returns a
      [result]; a method of the class maps a [Service] to an outcome and
      the [Service] after the call.
    - [Math.random()] is a parameter of the call that consumes it: a
      draw [r], a double with [0 <= r < 1] written as a fraction whose
      denominator is a power of two ([is_double]).
    - Timers only delay; a call is modelled from its start to its
      settlement, one call at a time. *)

From Stdlib Require Import Ascii String QArith Qround.
From stdpp Require Import base option list strings gmap.
From stdpp Require Import pretty.

Local Open Scope string_scope.

(** ** JavaScript string primitives *)

Module Js.

Definition dquote : string := String (ascii_of_nat 34) EmptyString.
Definition newline : string := String (ascii_of_nat 10) EmptyString.
Definition space : ascii := ascii_of_nat 32.

(** [t] is a prefix of [s]. *)
Fixpoint startsWith (s t : string) : bool :=
  match t, s with
  | EmptyString, _ => true
  | String _ _, EmptyString => false
  | String b t', String a s' => if Ascii.eqb a b then startsWith s' t' else false
  end.

(** [s.includes(t)] *)
Fixpoint includes (s t : string) : bool :=
  startsWith s t ||
  match s with
  | EmptyString => false
  | String _ s' => includes s' t
  end.

(** [s.substring(lo, hi)] on natural arguments: the arguments are
    swapped when [lo > hi] and clamped to the length of [s]. *)
Definition substring (s : string) (lo hi : nat) : string :=
  String.substring (Nat.min lo hi) (Nat.max lo hi - Nat.min lo hi) s.

(** [s.slice(lo)] *)
Definition slice (s : string) (lo : nat) : string :=
  String.substring lo (String.length s - lo) s.

(** [s.charAt(i)]: the empty string out of range. *)
Definition charAt (s : string) (i : nat) : string :=
  match String.get i s with
  | Some c => String c EmptyString
  | None => EmptyString
  end.

(** The lower-case form of a code unit: the letters A-Z and the Latin-1
    capitals U+00C0-U+00DE (the multiplication sign U+00D7 apart) move
    up by 32. *)
Definition lower (c : ascii) : ascii :=
  let n := nat_of_ascii c in
  if (65 <=? n)%nat && (n <=? 90)%nat then ascii_of_nat (n + 32)
  else if (192 <=? n)%nat && (n <=? 222)%nat && negb (n =? 215)%nat
       then ascii_of_nat (n + 32)
       else c.

(** The upper-case form of a code unit: the letters a-z and the Latin-1
    small letters U+00E0-U+00FE (the division sign U+00F7 apart) move
    down by 32.  The upper-case forms of U+00B5, U+00DF and U+00FF are
    not below 256; the only text upper-cased is the first character of
    a platform tag. *)
Definition upper (c : ascii) : ascii :=
  let n := nat_of_ascii c in
  if (97 <=? n)%nat && (n <=? 122)%nat then ascii_of_nat (n - 32)
  else if (224 <=? n)%nat && (n <=? 254)%nat && negb (n =? 247)%nat
       then ascii_of_nat (n - 32)
       else c.

Fixpoint map_chars (f : ascii -> ascii) (s : string) : string :=
  match s with
  | EmptyString => EmptyString
  | String c s' => String (f c) (map_chars f s')
  end.

Definition toLowerCase : string -> string := map_chars lower.
Definition toUpperCase : string -> string := map_chars upper.

(** [s.split(sep)] for a one-character separator: every occurrence of
    [sep] ends a token, so the result is never empty and two adjacent
    separators enclose an empty token. *)
Fixpoint split (sep : ascii) (s : string) : list string :=
  match s with
  | EmptyString => [EmptyString]
  | String c s' =>
      if Ascii.eqb c sep then EmptyString :: split sep s'
      else match split sep s' with
           | w :: ws => String c w :: ws
           | [] => [String c EmptyString]
           end
  end.

(** [ws.join(sep)] *)
Fixpoint join (sep : string) (ws : list string) : string :=
  match ws with
  | [] => EmptyString
  | [w] => w
  | w :: ws' => w ++ sep ++ join sep ws'
  end.

(** [n / 2^bits] rounded to the nearest integer, a tie to the even
    one. *)
Definition round_nearest_even (n bits : Z) : Z :=
  let q := (n / 2 ^ bits)%Z in
  let twice_rest := (2 * (n - q * 2 ^ bits))%Z in
  if (twice_rest <? 2 ^ bits)%Z then q
  else if (2 ^ bits <? twice_rest)%Z then (q + 1)%Z
  else if Z.even q then q else (q + 1)%Z.

(** [Math.floor(r * n)] in double arithmetic, for a draw held as the
    fraction [Qnum r / Qden r] with a power of two as denominator and
    an array length [n]: the exact product of the numerator and [n] is
    cut to 53 significant bits, to nearest and a tie to even, and the
    floor of the rounded product is taken. *)
Definition floor_scaled (r : Q) (n : nat) : Z :=
  let product := (Z.abs (Qnum r) * Z.of_nat n)%Z in
  let drop := Z.max 0 (Z.log2 product - 52) in
  let rounded :=
    (Z.sgn (Qnum r) * (round_nearest_even product drop * 2 ^ drop))%Z in
  (rounded / Z.pos (Qden r))%Z.

End Js.

(** ** Thrown values and outcomes *)

(** A thrown value: an [Error], a [TypeError], an error object of
    another name, or a value that is no error object, held as the string
    it converts to. *)
Inductive exn : Type :=
| Error (message : string)
| TypeError (message : string)
| NamedError (name message : string)
| Thrown (text : string).

(** [Error.prototype.toString]: the name alone when the message is
    empty, the message alone when the name is empty. *)
Definition error_to_string (name message : string) : string :=
  if String.eqb name EmptyString then message
  else if String.eqb message EmptyString then name
  else name ++ ": " ++ message.

(** [String(e)], as a template literal interpolates a caught value. *)
Definition exn_to_string (e : exn) : string :=
  match e with
  | Error m => error_to_string "Error" m
  | TypeError m => error_to_string "TypeError" m
  | NamedError name m => error_to_string name m
  | Thrown text => text
  end.

Inductive result (A : Type) : Type :=
| Ok (a : A)
| Throw (e : exn).
Arguments Ok {A} a.
Arguments Throw {A} e.

(** ** Chat template *)

Record RawMessage := { role : string; content : string }.

(** One iteration of the loop of [formatChatPrompt]: the [switch] has
    no [default], an unknown role adds nothing. *)
Definition formatChatPrompt_step (prompt : string) (message : RawMessage) : string :=
  if String.eqb (role message) "system" then
    prompt ++ ("<start_of_turn>user" ++ Js.newline ++ content message ++ "<end_of_turn>" ++ Js.newline)
  else if String.eqb (role message) "user" then
    prompt ++ ("<start_of_turn>user" ++ Js.newline ++ content message ++ "<end_of_turn>" ++ Js.newline)
  else if String.eqb (role message) "assistant" then
    prompt ++ ("<start_of_turn>model" ++ Js.newline ++ content message ++ "<end_of_turn>" ++ Js.newline)
  else prompt.

Definition formatChatPrompt (messages : list RawMessage) : string :=
  let prompt := fold_left formatChatPrompt_step messages EmptyString in
  prompt ++ ("<start_of_turn>model" ++ Js.newline).

(** The message type of the public [chat] method: the role is one of
    three literals. *)
Inductive Role := SYSTEM | USER | ASSISTANT.

Record ChatMessage := { msg_role : Role; msg_content : string }.

Definition role_key (r : Role) : string :=
  match r with
  | SYSTEM => "system"
  | USER => "user"
  | ASSISTANT => "assistant"
  end.

Definition raw (m : ChatMessage) : RawMessage :=
  {| role := role_key (msg_role m); content := msg_content m |}.

(** The template as the specification words it: one rendered turn per
    message, SYSTEM folded into the user turn. *)
Definition turn_name_spec (r : Role) : string :=
  match r with
  | SYSTEM | USER => "user"
  | ASSISTANT => "model"
  end.

Definition render_turn_spec (m : ChatMessage) : string :=
  "<start_of_turn>" ++ turn_name_spec (msg_role m) ++ Js.newline
    ++ msg_content m ++ "<end_of_turn>" ++ Js.newline.

Fixpoint concat_turns_spec (ms : list ChatMessage) : string :=
  match ms with
  | [] => EmptyString
  | m :: ms' => render_turn_spec m ++ concat_turns_spec ms'
  end.

(** ** Configuration *)

(** The values a configuration or an options object holds. *)
Inductive jsval : Type :=
| JUndefined
| JBool (b : bool)
| JNum (q : Q)
| JStr (s : string).

(** [Gemma3nConfig] as the object it is at run time: its own keys and
    their values.  A key that is present with the value [undefined] is
    a key all the same. *)
Abbreviation Gemma3nConfig := (gmap string jsval).

Definition default_fields : Gemma3nConfig :=
  <["maxTokens" := JNum (512 # 1)]>
    (<["temperature" := JNum (7 # 10)]>
      (<["topK" := JNum (50 # 1)]>
        (<["quantized" := JBool true]> ∅))).

(** The default value of the constructor's parameter. *)
Definition default_argument : Gemma3nConfig := <["modelSize" := JStr "E2B"]> ∅.

(** [{ maxTokens: 512, temperature: 0.7, topK: 50, quantized: true, ...config }]:
    the keys of [config] are written after the literal's, and win. *)
Definition spread_over_defaults (config : Gemma3nConfig) : Gemma3nConfig :=
  config ∪ default_fields.

(** [obj.key]: [undefined] for a missing key. *)
Definition get_field (obj : Gemma3nConfig) (key : string) : jsval :=
  default JUndefined (obj !! key).

(** ** The service object *)

(** The generator handle: its [platform] tag.  Its [generateText] member
    is [generateWithNativeModel] bound to the service. *)
Record Generator := { platform : string }.

Record Service := {
  textGenerator : option Generator;
  isModelLoaded : bool;
  config : Gemma3nConfig
}.

Definition constructor (argument : option Gemma3nConfig) : Service :=
  {| textGenerator := None;
     isModelLoaded := false;
     config := spread_over_defaults (default default_argument argument) |}.

(** The lifecycle state the specification names. *)
Inductive ServiceState := NOT_LOADED | LOADED.

Definition state_of (s : Service) : ServiceState :=
  if isModelLoaded s then LOADED else NOT_LOADED.

(** ** Methods as computations on the service *)

Definition M (A : Type) : Type := Service -> result A * Service.

Definition ret {A} (a : A) : M A := fun s => (Ok a, s).
Definition throw {A} (e : exn) : M A := fun s => (Throw e, s).
Definition mbind {A B} (m : M A) (k : A -> M B) : M B :=
  fun s => match m s with
           | (Ok a, s') => k a s'
           | (Throw e, s') => (Throw e, s')
           end.
Definition get : M Service := fun s => (Ok s, s).
Definition put (s' : Service) : M unit := fun _ => (Ok tt, s').

(** [try { body } catch (error) { handler }]: what [body] wrote before
    it threw stays written. *)
Definition try_catch {A} (body : M A) (handler : exn -> M A) : M A :=
  fun s => match body s with
           | (Ok a, s') => (Ok a, s')
           | (Throw e, s') => handler e s'
           end.

Declare Scope svc_scope.
Delimit Scope svc_scope with svc.
Notation "'let*' x ':=' m 'in' k" := (mbind m (fun x => k))
  (at level 10, x name, m at level 200, k at level 200) : svc_scope.
Local Open Scope svc_scope.

Definition set_textGenerator (g : option Generator) : M unit :=
  let* s := get in
  put {| textGenerator := g; isModelLoaded := isModelLoaded s; config := config s |}.

Definition set_isModelLoaded (b : bool) : M unit :=
  let* s := get in
  put {| textGenerator := textGenerator s; isModelLoaded := b; config := config s |}.

(** A step that the environment can make throw: [None] lets it run. *)
Definition step {A} (fault : option exn) (a : A) : M A :=
  match fault with
  | Some e => throw e
  | None => ret a
  end.

(** [await new Promise(resolve => setTimeout(resolve, ms))]: the timer
    only delays; the environment can make the wait throw. *)
Definition sleep (fault : option exn) (ms : Q) : M unit := step fault tt.

(** ** Platform resolver *)

(** The ambient flags [getPlatform] inspects.  [navigator] is [None]
    when the global is undefined, [Some None] when it has no
    [userAgent]. *)
Record Env := {
  hermes : bool;
  navigator : option (option string);
  has_window : bool;
  has_document : bool
}.

Definition getPlatform (env : Env) : string :=
  if hermes env then
    match navigator env with
    | Some ua =>
        let userAgent := default EmptyString ua in
        if Js.includes userAgent "iPhone" || Js.includes userAgent "iPad" then "ios"
        else if Js.includes userAgent "Android" then "android"
        else "ios"
    | None => "ios"
    end
  else if has_window env && has_document env then "web"
  else "web".

(** ** Lifecycle *)

(** Where a call of [initializeModel] is made to fail: while the
    platform is resolved, on entry to the platform's initializer, or in
    its timer. *)
Record Faults := {
  at_platform : option exn;
  at_dispatch : option exn;
  at_delay : option exn
}.

Definition no_faults : Faults :=
  {| at_platform := None; at_dispatch := None; at_delay := None |}.

Definition initializeIOSModel (f : Faults) : M unit :=
  let* _ := step (at_dispatch f) tt in
  let* _ := sleep (at_delay f) (3000 # 1) in
  set_textGenerator (Some {| platform := "ios" |}).

Definition initializeAndroidModel (f : Faults) : M unit :=
  let* _ := step (at_dispatch f) tt in
  let* _ := sleep (at_delay f) (3000 # 1) in
  set_textGenerator (Some {| platform := "android" |}).

Definition initializeWebModel (f : Faults) : M unit :=
  let* _ := step (at_dispatch f) tt in
  let* _ := sleep (at_delay f) (2000 # 1) in
  set_textGenerator (Some {| platform := "web" |}).

Definition initialization_error (error : exn) : exn :=
  Error ("Failed to initialize Gemma 3n: " ++ exn_to_string error).

Definition initializeModel (env : Env) (f : Faults) : M unit :=
  try_catch
    (let* platform := step (at_platform f) (getPlatform env) in
     let* _ := (if String.eqb platform "ios" then initializeIOSModel f
         else if String.eqb platform "android" then initializeAndroidModel f
         else initializeWebModel f) in
     set_isModelLoaded true)
    (fun error => throw (initialization_error error)).

Definition unloadModel : M unit :=
  let* s := get in
  match textGenerator s with
  | Some _ => let* _ := set_textGenerator None in set_isModelLoaded false
  | None => ret tt
  end.

(** ** Text generation *)

(** The [options] argument of the generating methods, as the object it
    is at run time. *)
Abbreviation Options := (gmap string jsval).

(** A template literal with one hole: the text before the opening
    quote, the second argument of [prompt.substring(0, n)], and the text
    after the closing quote. *)
Definition Template : Type := string * nat * string.

Definition instantiate (prompt : string) (t : Template) : string :=
  let '(before, n, after) := t in
  before ++ Js.dquote ++ Js.substring prompt 0 n ++ "..." ++ Js.dquote ++ after.

Definition ios_templates : list Template :=
  [ ("Using Core ML optimization on iOS to process: ", 40,
     " Here's my analysis based on the advanced neural processing capabilities.");
    ("iOS neural engine processing complete. Regarding ", 35,
     ", I can provide detailed insights using on-device intelligence.");
    ("Core ML inference suggests that ", 45,
     " involves several key factors that I'll explain using iOS-optimized processing.") ].

Definition android_templates : list Template :=
  [ ("Android TensorFlow Lite processing: ", 40,
     " Your query has been analyzed using Google's mobile ML optimization.");
    ("Using Android ML Kit for ", 35,
     " Here's what the optimized inference reveals about this topic.");
    ("TensorFlow Lite mobile inference complete for ", 45,
     " Let me share the processed insights.") ].

Definition web_templates : list Template :=
  [ ("Web ONNX.js processing: ", 40,
     " Browser-based inference provides these insights about your question.");
    ("Using optimized web inference for ", 35,
     " Here's what the client-side model analysis reveals.");
    ("WebAssembly-accelerated processing of ", 45,
     " provides these comprehensive insights.") ].

(** The object literal [platformResponses], its template literals
    evaluated on [prompt]. *)
Definition platformResponses (prompt : string) : list (string * list string) :=
  [ ("ios", map (instantiate prompt) ios_templates);
    ("android", map (instantiate prompt) android_templates);
    ("web", map (instantiate prompt) web_templates) ].

(** The keys the literal writes. *)
Fixpoint own_property {A} (obj : list (string * A)) (key : string) : option A :=
  match obj with
  | [] => None
  | (k, v) :: obj' => if String.eqb k key then Some v else own_property obj' key
  end.

(** [responses[k]]: [undefined] outside the array. *)
Definition element {A} (l : list A) (k : Z) : option A :=
  if (k <? 0)%Z then None else l !! Z.to_nat k.

(** A value that [+=] turns into a string. *)
Definition to_string_or_undefined (v : option string) : string :=
  default "undefined" v.

Definition capitalize (platform : string) : string :=
  Js.toUpperCase (Js.charAt platform 0) ++ Js.slice platform 1.

(** The four sentences [response += ...] can append. *)
Definition how_suffix (platform : string) : string :=
  " The " ++ platform
    ++ " platform enables step-by-step analysis with optimized inference speeds.".

Definition what_suffix (platform : string) : string :=
  " " ++ capitalize platform
    ++ " hardware acceleration provides comprehensive understanding.".

Definition why_suffix (platform : string) : string :=
  " Platform-specific optimization on " ++ platform
    ++ " reveals the underlying reasoning patterns.".

Definition default_suffix (platform : string) : string :=
  " Native " ++ platform ++ " processing ensures optimal performance and accuracy.".

(** The string-named members an object literal inherits from
    [Object.prototype]. *)
Definition inherited_names : list string :=
  [ "constructor"; "hasOwnProperty"; "isPrototypeOf"; "propertyIsEnumerable";
    "toLocaleString"; "toString"; "valueOf"; "__proto__";
    "__defineGetter__"; "__defineSetter__"; "__lookupGetter__";
    "__lookupSetter__" ].

(** What [platformResponses[platform] || platformResponses.web] is: a
    list of the literal, or a member inherited from [Object.prototype],
    which is truthy too; the web list only when the lookup finds
    nothing. *)
Inductive Responses : Type :=
| TemplateList (templates : list string)
| PrototypeMember.

Definition select_responses (prompt platform : string) : Responses :=
  match own_property (platformResponses prompt) platform with
  | Some own => TemplateList own
  | None =>
      if bool_decide (platform ∈ inherited_names) then PrototypeMember
      else TemplateList (map (instantiate prompt) web_templates)
  end.

(** [responses[Math.floor(Math.random() * responses.length)]].  An
    inherited member is a function or [Object.prototype] itself: it has
    no element at the index its [length] gives. *)
Definition pick_response (responses : Responses) (pick : Q) : option string :=
  match responses with
  | TemplateList templates =>
      element templates (Js.floor_scaled pick (length templates))
  | PrototypeMember => None
  end.

Definition generateWithNativeModel (prompt : string) (options : option Options)
    (pick : Q) : M string :=
  let* s := get in
  match textGenerator s with
  | None => throw (TypeError "Cannot read properties of null (reading 'platform')")
  | Some generator =>
      let platform := platform generator in
      let responses := select_responses prompt platform in
      let response := to_string_or_undefined (pick_response responses pick) in
      let promptLower := Js.toLowerCase prompt in
      if Js.includes promptLower "how" then
        ret (response ++ how_suffix platform)
      else if Js.includes promptLower "what" then
        ret (response ++ what_suffix platform)
      else if Js.includes promptLower "why" then
        ret (response ++ why_suffix platform)
      else
        ret (response ++ default_suffix platform)
  end.

Definition not_loaded_error : exn :=
  Error "Model not loaded. Call initializeModel() first.".

(** [!this.textGenerator || !this.isModelLoaded] *)
Definition not_ready (s : Service) : bool :=
  negb (bool_decide (is_Some (textGenerator s))) || negb (isModelLoaded s).

Definition generateText (prompt : string) (options : option Options)
    (delay_draw pick : Q) : M string :=
  let* s := get in
  if not_ready s then throw not_loaded_error
  else
    try_catch
      (let* _ := sleep None ((800 # 1) + delay_draw * (1200 # 1)) in
       generateWithNativeModel prompt options pick)
      (fun error => throw (Error ("Text generation failed: " ++ exn_to_string error))).

(** What a consumer that iterates an async generator to its end sees:
    the values yielded, then a normal return or a throw. *)
Record StreamOutcome := {
  yielded : list string;
  completion : result unit
}.

(** The [for] loop of [generateTextStream] from index [i], with [n]
    iterations left. *)
Fixpoint stream_loop (words : list string) (delay_draws : nat -> Q) (i n : nat)
    : list string :=
  match n with
  | O => []
  | S n' =>
      let _ := ((150 # 1) + delay_draws i * (100 # 1))%Q in
      Js.join " " (take (i + 1) words) :: stream_loop words delay_draws (i + 1) n'
  end.

Definition generateTextStream (prompt : string) (options : option Options)
    (pick : Q) (delay_draws : nat -> Q) (s : Service) : StreamOutcome * Service :=
  if not_ready s then
    ({| yielded := []; completion := Throw not_loaded_error |}, s)
  else
    match generateWithNativeModel prompt options pick s with
    | (Ok fullResponse, s') =>
        let words := Js.split Js.space fullResponse in
        ({| yielded := stream_loop words delay_draws 0 (length words);
            completion := Ok tt |}, s')
    | (Throw error, s') =>
        ({| yielded := [];
            completion :=
              Throw (Error ("Streaming generation failed: " ++ exn_to_string error)) |},
         s')
    end.

Definition chat (messages : list ChatMessage) (options : option Options)
    (delay_draw pick : Q) : M string :=
  let chatPrompt := formatChatPrompt (map raw messages) in
  generateText chatPrompt options delay_draw pick.

(** ** Multimodal stubs and status *)

Inductive AudioTask := transcribe | translate.

Definition analyzeImage (imageUri : string) (prompt : option string)
    (options : option Options) : M string :=
  throw (Error "Image analysis not yet implemented. Requires multimodal Gemma 3n setup.").

Definition processAudio (audioUri : string) (task : option AudioTask)
    (options : option Options) : M string :=
  throw (Error "Audio processing not yet implemented. Requires audio-enabled Gemma 3n setup.").

Record ModelInfo := {
  isLoaded : bool;
  modelSize : jsval;
  info_config : Gemma3nConfig
}.

Definition getModelInfo : M ModelInfo :=
  let* s := get in
  ret {| isLoaded := isModelLoaded s;
         modelSize := get_field (config s) "modelSize";
         info_config := config s |}.

(** ** Sequences of calls *)

Inductive Call : Type :=
| CallInitialize (env : Env) (f : Faults)
| CallGenerate (prompt : string) (options : option Options) (delay_draw pick : Q)
| CallGenerateStream (prompt : string) (options : option Options) (pick : Q)
    (delay_draws : nat -> Q)
| CallChat (messages : list ChatMessage) (options : option Options) (delay_draw pick : Q)
| CallAnalyzeImage (imageUri : string) (prompt : option string) (options : option Options)
| CallProcessAudio (audioUri : string) (task : option AudioTask) (options : option Options)
| CallGetInfo
| CallUnload.

(** The service after one call, whether the call returned or threw. *)
Definition after (c : Call) (s : Service) : Service :=
  match c with
  | CallInitialize env f => snd (initializeModel env f s)
  | CallGenerate prompt options d p => snd (generateText prompt options d p s)
  | CallGenerateStream prompt options p ds => snd (generateTextStream prompt options p ds s)
  | CallChat messages options d p => snd (chat messages options d p s)
  | CallAnalyzeImage uri prompt options => snd (analyzeImage uri prompt options s)
  | CallProcessAudio uri task options => snd (processAudio uri task options s)
  | CallGetInfo => snd (getModelInfo s)
  | CallUnload => snd (unloadModel s)
  end.

Definition run (calls : list Call) (s : Service) : Service :=
  fold_left (fun s c => after c s) calls s.

(** The loaded flag is set exactly when a generator handle is installed. *)
Definition handle_matches_flag (s : Service) : Prop :=
  isModelLoaded s = true <-> is_Some (textGenerator s).

(** ** Substrings and word tokens as the specification words them *)

(** [t] occurs in [s]. *)
Definition contains (s t : string) : Prop :=
  exists l r : string, s = l ++ t ++ r.

(** A double of magnitude below 2^53, written as a fraction: the
    denominator is a power of two no finer than the smallest subnormal,
    the numerator has at most 53 bits.  Every value of [Math.random()]
    has this form. *)
Definition is_double (r : Q) : Prop :=
  exists e : Z,
    (0 <= e <= 1074)%Z /\ Z.pos (Qden r) = (2 ^ e)%Z
    /\ (Z.abs (Qnum r) < 2 ^ 53)%Z.


Definition is_whitespace (c : ascii) : bool :=
  let n := nat_of_ascii c in
  (n =? 32)%nat || ((9 <=? n)%nat && (n <=? 13)%nat).

Fixpoint whitespace_tokens_spec (s : string) : list string :=
  match s with
  | EmptyString => [EmptyString]
  | String c s' =>
      if is_whitespace c then EmptyString :: whitespace_tokens_spec s'
      else match whitespace_tokens_spec s' with
           | w :: ws => String c w :: ws
           | [] => [String c EmptyString]
           end
  end.

(** Splitting on whitespace: the maximal runs of characters that are
    not whitespace. *)
Definition whitespace_words_spec (s : string) : list string :=
  filter (fun w => w <> EmptyString) (whitespace_tokens_spec s).

(** ** Model identifier *)

(** [value === literal] for a string literal. *)
Definition is_string (value : jsval) (literal : string) : bool :=
  match value with
  | JStr s => String.eqb s literal
  | _ => false
  end.

Definition getModelId : M string :=
  let* s := get in
  let size := get_field (config s) "modelSize" in
  if is_string size "E2B" then ret "onnx-community/gemma-3n-E2B-it-ONNX"
  else if is_string size "E4B" then ret "onnx-community/gemma-3n-E4B-it-ONNX"
  else ret "onnx-community/gemma-3n-E2B-it-ONNX".

(** ** Counting and roles, for the statements below *)

Fixpoint count_char (c : ascii) (s : string) : nat :=
  match s with
  | EmptyString => 0
  | String a s' => (if Ascii.eqb a c then 1 else 0) + count_char c s'
  end.

(** The roles the [switch] of [formatChatPrompt] has a case for. *)
Definition known_role (m : RawMessage) : bool :=
  String.eqb (role m) "system" || String.eqb (role m) "user"
  || String.eqb (role m) "assistant".

(** ** Configuration presets (config/gemma3nConfig.ts) *)

Module Presets.

(** The five presets set the same five keys, [quantized] always true. *)
Definition preset (size : string) (maxTokens temperature topK : Q) : Gemma3nConfig :=
  <["modelSize" := JStr size]>
    (<["maxTokens" := JNum maxTokens]>
      (<["temperature" := JNum temperature]>
        (<["topK" := JNum topK]>
          (<["quantized" := JBool true]> ∅)))).

Definition mobileOptimizedConfig : Gemma3nConfig := preset "E2B" (256 # 1) (7 # 10) (50 # 1).
Definition qualityFocusedConfig : Gemma3nConfig := preset "E4B" (512 # 1) (8 # 10) (40 # 1).
Definition fastResponseConfig : Gemma3nConfig := preset "E2B" (128 # 1) (5 # 10) (30 # 1).
Definition creativeWritingConfig : Gemma3nConfig := preset "E4B" (512 # 1) (9 # 10) (60 # 1).
Definition qaConfig : Gemma3nConfig := preset "E2B" (256 # 1) (3 # 10) (30 # 1).
Definition defaultConfig : Gemma3nConfig := mobileOptimizedConfig.

End Presets.

(** ** Callers of the shared service *)

(** The callers below are a React hook and two function components.  A
    call of one of their callbacks is modelled from its start to its
    settlement, made on the latest render: the state its guard reads is
    the state the earlier calls left, and the state it leaves is the
    outcome of all its state setters.  The callbacks passed in as props
    are taken not to throw. *)

(** The code units below 256 that [String.prototype.trim] strips: tab
    to carriage return, the space and the no-break space U+00A0. *)
Definition is_trimmed_unit (c : ascii) : bool :=
  let n := nat_of_ascii c in
  (n =? 32)%nat || ((9 <=? n)%nat && (n <=? 13)%nat) || (n =? 160)%nat.

(** [String.prototype.trim] *)
Fixpoint trimStart (s : string) : string :=
  match s with
  | EmptyString => EmptyString
  | String c s' => if is_trimmed_unit c then trimStart s' else s
  end.

Fixpoint trimEnd (s : string) : string :=
  match s with
  | EmptyString => EmptyString
  | String c s' =>
      match trimEnd s' with
      | EmptyString => if is_trimmed_unit c then EmptyString else String c EmptyString
      | String c' t => String c (String c' t)
      end
  end.

Definition trim (s : string) : string := trimEnd (trimStart s).

(** [err instanceof Error ? err.message : fallback] *)
Definition message_of (fallback : string) (err : exn) : string :=
  match err with
  | Error m => m
  | TypeError m => m
  | NamedError _ m => m
  | Thrown _ => fallback
  end.

(** [Object.assign(gemma3nService, new Gemma3nService(caller))]: the
    three fields of a new instance are copied over the shared one. *)
Definition assign_new_instance (caller : Gemma3nConfig) (shared : Service) : Service :=
  let fresh := constructor (Some caller) in
  {| textGenerator := textGenerator fresh;
     isModelLoaded := isModelLoaded fresh;
     config := config fresh |}.

(** [if (config) { Object.assign(...) }] *)
Definition configure (caller : option Gemma3nConfig) (shared : Service) : Service :=
  match caller with
  | Some c => assign_new_instance c shared
  | None => shared
  end.

(** What a caller reports besides its state: the callbacks it invokes
    and the alerts it shows. *)
Inductive Event : Type :=
| onModelLoaded
| onError (message : string)
| Alert (title message : string).

(** *** The hook (hooks/useGemma3n.ts) *)

Module useGemma3n.

Record State := {
  isLoaded : bool;
  isLoading : bool;
  error : option string;
  modelInfo : option ModelInfo
}.

Definition initial : State :=
  {| isLoaded := false; isLoading := false; error := None; modelInfo := None |}.

Definition setIsLoaded (b : bool) (st : State) : State :=
  {| isLoaded := b; isLoading := isLoading st; error := error st;
     modelInfo := modelInfo st |}.

Definition setIsLoading (b : bool) (st : State) : State :=
  {| isLoaded := isLoaded st; isLoading := b; error := error st;
     modelInfo := modelInfo st |}.

Definition setError (e : option string) (st : State) : State :=
  {| isLoaded := isLoaded st; isLoading := isLoading st; error := e;
     modelInfo := modelInfo st |}.

Definition setModelInfo (info : option ModelInfo) (st : State) : State :=
  {| isLoaded := isLoaded st; isLoading := isLoading st; error := error st;
     modelInfo := info |}.

Definition loadModel (caller : option Gemma3nConfig) (env : Env) (f : Faults)
    (st : State) (s : Service) : result unit * State * Service :=
  if isLoaded st || isLoading st then (Ok tt, st, s)
  else
    let st := setError None (setIsLoading true st) in
    match initializeModel env f (configure caller s) with
    | (Ok _, s') =>
        match getModelInfo s' with
        | (Ok info, s'') =>
            (Ok tt,
             setIsLoading false (setIsLoaded true (setModelInfo (Some info) st)), s'')
        | (Throw err, s'') =>
            (Ok tt, setIsLoading false (setError (Some (message_of "Unknown error occurred" err)) st), s'')
        end
    | (Throw err, s') =>
        (Ok tt, setIsLoading false (setError (Some (message_of "Unknown error occurred" err)) st), s')
    end.

Definition unloadModel (st : State) (s : Service) : result unit * State * Service :=
  if negb (isLoaded st) then (Ok tt, st, s)
  else
    match unloadModel s with
    | (Ok _, s') =>
        (Ok tt, setError None (setModelInfo None (setIsLoaded false st)), s')
    | (Throw err, s') => (Ok tt, setError (Some (message_of "Unknown error occurred" err)) st, s')
    end.

Definition not_loaded_error : exn := Error "Model not loaded. Call loadModel() first.".

Definition generateText (prompt : string) (options : option Options)
    (delay_draw pick : Q) (st : State) (s : Service)
    : result string * State * Service :=
  if negb (isLoaded st) then (Throw not_loaded_error, st, s)
  else
    let st := setError None st in
    match generateText prompt options delay_draw pick s with
    | (Ok text, s') => (Ok text, st, s')
    | (Throw err, s') =>
        let errorMessage := message_of "Text generation failed" err in
        (Throw (Error errorMessage), setError (Some errorMessage) st, s')
    end.

Definition chat (messages : list ChatMessage) (delay_draw pick : Q)
    (st : State) (s : Service) : result string * State * Service :=
  if negb (isLoaded st) then (Throw not_loaded_error, st, s)
  else
    let st := setError None st in
    match chat messages None delay_draw pick s with
    | (Ok text, s') => (Ok text, st, s')
    | (Throw err, s') =>
        let errorMessage := message_of "Chat failed" err in
        (Throw (Error errorMessage), setError (Some errorMessage) st, s')
    end.

(** Calls on one instance of the hook, which alone uses the service. *)
Inductive Call : Type :=
| CallLoad (env : Env) (f : Faults)
| CallUnload
| CallGenerate (prompt : string) (options : option Options) (delay_draw pick : Q)
| CallChat (messages : list ChatMessage) (delay_draw pick : Q).

Definition after (caller : option Gemma3nConfig) (c : Call) (w : State * Service)
    : State * Service :=
  match c with
  | CallLoad env f =>
      let '(_, st, s) := loadModel caller env f (fst w) (snd w) in (st, s)
  | CallUnload =>
      let '(_, st, s) := unloadModel (fst w) (snd w) in (st, s)
  | CallGenerate prompt options d p =>
      let '(_, st, s) := generateText prompt options d p (fst w) (snd w) in (st, s)
  | CallChat messages d p =>
      let '(_, st, s) := chat messages d p (fst w) (snd w) in (st, s)
  end.

Definition run (caller : option Gemma3nConfig) (calls : list Call)
    (w : State * Service) : State * Service :=
  fold_left (fun w c => after caller c w) calls w.

End useGemma3n.

(** *** The chat component (components/Gemma3nChat.tsx) *)

Module Gemma3nChat.

Record Message := {
  id : string;
  role : Role;
  content : string;
  timestamp : Z
}.

Record State := {
  messages : list Message;
  inputText : string;
  isLoading : bool;
  isModelLoaded : bool;
  isInitializing : bool
}.

Definition initial : State :=
  {| messages := []; inputText := EmptyString; isLoading := false;
     isModelLoaded := false; isInitializing := false |}.

Definition setMessages (ms : list Message) (st : State) : State :=
  {| messages := ms; inputText := inputText st; isLoading := isLoading st;
     isModelLoaded := isModelLoaded st; isInitializing := isInitializing st |}.

Definition setInputText (text : string) (st : State) : State :=
  {| messages := messages st; inputText := text; isLoading := isLoading st;
     isModelLoaded := isModelLoaded st; isInitializing := isInitializing st |}.

Definition setIsLoading (b : bool) (st : State) : State :=
  {| messages := messages st; inputText := inputText st; isLoading := b;
     isModelLoaded := isModelLoaded st; isInitializing := isInitializing st |}.

Definition setIsModelLoaded (b : bool) (st : State) : State :=
  {| messages := messages st; inputText := inputText st; isLoading := isLoading st;
     isModelLoaded := b; isInitializing := isInitializing st |}.

Definition setIsInitializing (b : bool) (st : State) : State :=
  {| messages := messages st; inputText := inputText st; isLoading := isLoading st;
     isModelLoaded := isModelLoaded st; isInitializing := b |}.

(** [msg => ({ role: msg.role, content: msg.content })] *)
Definition history_entry (msg : Message) : ChatMessage :=
  {| msg_role := role msg; msg_content := content msg |}.

(** [now] is what [Date.now()] returns, [stamp] what [new Date()] holds. *)
Definition initializeModel (caller : option Gemma3nConfig) (env : Env) (f : Faults)
    (now stamp : Z) (st : State) (s : Service) : list Event * State * Service :=
  if isModelLoaded st || isInitializing st then ([], st, s)
  else
    let st := setIsInitializing true st in
    match initializeModel env f (configure caller s) with
    | (Ok _, s') =>
        let st := setIsModelLoaded true st in
        let welcome :=
          {| id := pretty now; role := ASSISTANT;
             content := "Hello! I'm Gemma 3n, your local AI assistant. How can I help you today?";
             timestamp := stamp |} in
        ([onModelLoaded], setIsInitializing false (setMessages [welcome] st), s')
    | (Throw error, s') =>
        let errorMessage := "Failed to load model: " ++ exn_to_string error in
        ([onError errorMessage; Alert "Error" errorMessage],
         setIsInitializing false st, s')
    end.

Definition sendMessage (delay_draw pick : Q) (now1 stamp1 now2 stamp2 : Z)
    (st : State) (s : Service) : list Event * State * Service :=
  if String.eqb (trim (inputText st)) EmptyString || isLoading st
     || negb (isModelLoaded st)
  then ([], st, s)
  else
    let userMessage :=
      {| id := pretty now1; role := USER; content := trim (inputText st);
         timestamp := stamp1 |} in
    let st1 :=
      setIsLoading true
        (setInputText EmptyString (setMessages (messages st ++ [userMessage]) st)) in
    let chatHistory := map history_entry (messages st ++ [userMessage]) in
    match chat chatHistory None delay_draw pick s with
    | (Ok response, s') =>
        let assistantMessage :=
          {| id := pretty (now2 + 1)%Z; role := ASSISTANT; content := response;
             timestamp := stamp2 |} in
        ([], setIsLoading false (setMessages (messages st1 ++ [assistantMessage]) st1),
         s')
    | (Throw error, s') =>
        let errorMessage := "Failed to generate response: " ++ exn_to_string error in
        let errorResponseMessage :=
          {| id := pretty (now2 + 1)%Z; role := ASSISTANT;
             content := "Sorry, I encountered an error while processing your request. Please try again.";
             timestamp := stamp2 |} in
        ([onError errorMessage],
         setIsLoading false
           (setMessages (messages st1 ++ [errorResponseMessage]) st1),
         s')
    end.

Definition clearChat (now stamp : Z) (st : State) : State :=
  setMessages
    [ {| id := pretty now; role := ASSISTANT;
         content := "Chat cleared! How can I help you?"; timestamp := stamp |} ]
    st.

Inductive Call : Type :=
| CallInitialize (env : Env) (f : Faults) (now stamp : Z)
| CallType (text : string)
| CallSend (delay_draw pick : Q) (now1 stamp1 now2 stamp2 : Z)
| CallClear (now stamp : Z).

Definition after (caller : option Gemma3nConfig) (c : Call) (w : State * Service)
    : State * Service :=
  match c with
  | CallInitialize env f now stamp =>
      let '(_, st, s) := initializeModel caller env f now stamp (fst w) (snd w) in
      (st, s)
  | CallType text => (setInputText text (fst w), snd w)
  | CallSend d p now1 stamp1 now2 stamp2 =>
      let '(_, st, s) := sendMessage d p now1 stamp1 now2 stamp2 (fst w) (snd w) in
      (st, s)
  | CallClear now stamp => (clearChat now stamp (fst w), snd w)
  end.

Definition run (caller : option Gemma3nConfig) (calls : list Call)
    (w : State * Service) : State * Service :=
  fold_left (fun w c => after caller c w) calls w.

End Gemma3nChat.

(** *** The example component (components/SimpleGemmaExample.tsx) *)

Module SimpleGemmaExample.

Record State := {
  prompt : string;
  response : string;
  isGenerating : bool
}.

(** The configuration the component hands to the hook. *)
Definition hook_config : Gemma3nConfig :=
  <["modelSize" := JStr "E2B"]>
    (<["maxTokens" := JNum (256 # 1)]>
      (<["temperature" := JNum (7 # 10)]>
        (<["quantized" := JBool true]> ∅))).

Definition generate_options : Options :=
  <["maxTokens" := JNum (100 # 1)]> (<["temperature" := JNum (7 # 10)]> ∅).

Definition handleGenerateText (delay_draw pick : Q) (ui : State)
    (hook : useGemma3n.State) (s : Service)
    : list Event * State * useGemma3n.State * Service :=
  if String.eqb (trim (prompt ui)) EmptyString || negb (useGemma3n.isLoaded hook)
  then ([], ui, hook, s)
  else
    match useGemma3n.generateText (prompt ui) (Some generate_options)
            delay_draw pick hook s with
    | (Ok result, hook', s') =>
        ([], {| prompt := prompt ui; response := result; isGenerating := false |},
         hook', s')
    | (Throw err, hook', s') =>
        ([Alert "Error" (message_of "Generation failed" err)],
         {| prompt := prompt ui; response := response ui; isGenerating := false |},
         hook', s')
    end.

Definition handleLoadModel (env : Env) (f : Faults)
    (hook : useGemma3n.State) (s : Service)
    : list Event * useGemma3n.State * Service :=
  match useGemma3n.loadModel (Some hook_config) env f hook s with
  | (Ok _, hook', s') =>
      ([Alert "Success" "Gemma 3n model loaded successfully!"], hook', s')
  | (Throw err, hook', s') => ([Alert "Error" (message_of "Failed to load model" err)], hook', s')
  end.

End SimpleGemmaExample.

(** ** Statements about the callers *)

(** What holds between two calls on a hook that alone drives a
    constructed service. *)
Definition hook_in_step (w : useGemma3n.State * Service) : Prop :=
  useGemma3n.isLoading (fst w) = false
  /\ useGemma3n.isLoaded (fst w) = isModelLoaded (snd w)
  /\ handle_matches_flag (snd w)
  /\ useGemma3n.modelInfo (fst w)
     = if useGemma3n.isLoaded (fst w)
       then Some {| isLoaded := true;
                    modelSize := get_field (config (snd w)) "modelSize";
                    info_config := config (snd w) |}
       else None.

(** A message the chat component may hold: never a system message, and
    a user message holds trimmed, non-empty text. *)
Definition well_formed_message (m : Gemma3nChat.Message) : Prop :=
  Gemma3nChat.role m <> SYSTEM
  /\ (Gemma3nChat.role m = USER ->
      Gemma3nChat.content m <> EmptyString
      /\ trim (Gemma3nChat.content m) = Gemma3nChat.content m).

(** What holds between two calls on a chat component that alone drives
    a constructed service. *)
Definition chat_in_step (w : Gemma3nChat.State * Service) : Prop :=
  Gemma3nChat.isLoading (fst w) = false
  /\ Gemma3nChat.isInitializing (fst w) = false
  /\ Gemma3nChat.isModelLoaded (fst w) = isModelLoaded (snd w)
  /\ handle_matches_flag (snd w)
  /\ Forall well_formed_message (Gemma3nChat.messages (fst w)).

(** * Properties *)

(** ** Strings *)

Lemma append_cons (x : ascii) (a b : string) : String x a ++ b = String x (a ++ b).
Proof. reflexivity. Qed.

Lemma append_assoc (a b c : string) : (a ++ b) ++ c = a ++ (b ++ c).
Proof.
  induction a as [|x a IH]; [reflexivity|].
  rewrite !append_cons. f_equal. exact IH.
Qed.

Lemma append_empty_r (a : string) : a ++ EmptyString = a.
Proof.
  induction a as [|x a IH]; [reflexivity|].
  rewrite append_cons. f_equal. exact IH.
Qed.

Lemma append_length (a b : string) :
  String.length (a ++ b) = String.length a + String.length b.
Proof.
  induction a as [|x a IH]; [reflexivity|].
  rewrite append_cons. simpl. f_equal. exact IH.
Qed.

(** ** Chat template *)

Lemma formatChatPrompt_step_raw (prompt : string) (m : ChatMessage) :
  formatChatPrompt_step prompt (raw m) = prompt ++ render_turn_spec m.
Proof. destruct m as [[] c]; reflexivity. Qed.

Lemma formatChatPrompt_loop (messages : list ChatMessage) (prompt : string) :
  fold_left formatChatPrompt_step (map raw messages) prompt
  = prompt ++ concat_turns_spec messages.
Proof.
  revert prompt.
  induction messages as [|m messages IH]; intros prompt; simpl.
  - symmetry; apply append_empty_r.
  - rewrite IH, formatChatPrompt_step_raw. apply append_assoc.
Qed.

(** C4. [formatChatPrompt] is a function of the message list alone.  It
    renders the messages in input order, SYSTEM and USER as a user turn,
    ASSISTANT as a model turn, and ends with an opened model turn; on
    [{SYSTEM,a}, {USER,b}, {ASSISTANT,c}] it produces the literal
    string of the specification. *)
Theorem formatChatPrompt_renders_turns :
  (forall messages : list ChatMessage,
     formatChatPrompt (map raw messages)
     = concat_turns_spec messages ++ "<start_of_turn>model" ++ Js.newline)
  /\ (forall c : string,
        render_turn_spec {| msg_role := SYSTEM; msg_content := c |}
        = "<start_of_turn>user" ++ Js.newline ++ c ++ "<end_of_turn>" ++ Js.newline
        /\ render_turn_spec {| msg_role := USER; msg_content := c |}
           = "<start_of_turn>user" ++ Js.newline ++ c ++ "<end_of_turn>" ++ Js.newline
        /\ render_turn_spec {| msg_role := ASSISTANT; msg_content := c |}
           = "<start_of_turn>model" ++ Js.newline ++ c ++ "<end_of_turn>" ++ Js.newline)
  /\ formatChatPrompt
       (map raw [ {| msg_role := SYSTEM; msg_content := "a" |};
                  {| msg_role := USER; msg_content := "b" |};
                  {| msg_role := ASSISTANT; msg_content := "c" |} ])
     = "<start_of_turn>user" ++ Js.newline ++ "a<end_of_turn>" ++ Js.newline
         ++ "<start_of_turn>user" ++ Js.newline ++ "b<end_of_turn>" ++ Js.newline
         ++ "<start_of_turn>model" ++ Js.newline ++ "c<end_of_turn>" ++ Js.newline
         ++ "<start_of_turn>model" ++ Js.newline.
Proof.
  split; [|split].
  - intros messages. unfold formatChatPrompt.
    rewrite formatChatPrompt_loop. reflexivity.
  - intros c. repeat split.
  - reflexivity.
Qed.

(** ** Lifecycle *)

Lemma getPlatform_cases (env : Env) :
  getPlatform env = "ios" \/ getPlatform env = "android" \/ getPlatform env = "web".
Proof.
  unfold getPlatform.
  destruct (hermes env); [destruct (navigator env) as [ua|] |].
  - destruct (_ || _); [auto|]. destruct (Js.includes _ _); auto.
  - auto.
  - destruct (_ && _); auto.
Qed.

(** What [initializeModel] does, by the first step that throws. *)
Lemma initializeModel_outcome (env : Env) (f : Faults) (s : Service) :
  initializeModel env f s
  = match at_platform f, at_dispatch f, at_delay f with
    | Some e, _, _ => (Throw (initialization_error e), s)
    | None, Some e, _ => (Throw (initialization_error e), s)
    | None, None, Some e => (Throw (initialization_error e), s)
    | None, None, None =>
        (Ok tt, {| textGenerator := Some {| platform := getPlatform env |};
                   isModelLoaded := true;
                   config := config s |})
    end.
Proof.
  pose proof (getPlatform_cases env) as Hcases.
  destruct f as [[p|] [d|] [t|]]; try reflexivity;
    unfold initializeModel, try_catch, mbind; simpl;
    destruct Hcases as [H | [H | H]]; rewrite H; reflexivity.
Qed.

(** C6. If a step of [initializeModel] throws (resolving the platform,
    entering the platform's initializer, or its timer), the call throws
    an [Error] whose message is the fixed prefix followed by the thrown
    value converted to a string: for an error object its name, a colon
    and its message (the name alone when the message is empty), for any
    other value its own string.  The cause is what the first failing
    step threw.  The service is as it was before the call: from
    NOT_LOADED it stays NOT_LOADED. *)
Theorem initializeModel_failure_keeps_state (env : Env) (f : Faults) (s : Service) :
  at_platform f <> None \/ at_dispatch f <> None \/ at_delay f <> None ->
  exists (cause : exn) (text : string),
    Some cause ∈ [at_platform f; at_dispatch f; at_delay f]
    /\ Some cause
       = match at_platform f, at_dispatch f with
         | Some e, _ => Some e
         | None, Some e => Some e
         | None, None => at_delay f
         end
    /\ initializeModel env f s
       = (Throw (Error ("Failed to initialize Gemma 3n: " ++ text)), s)
    /\ text
       = match cause with
         | Error m =>
             if String.eqb m EmptyString then "Error" else "Error: " ++ m
         | TypeError m =>
             if String.eqb m EmptyString then "TypeError" else "TypeError: " ++ m
         | NamedError name m =>
             if String.eqb name EmptyString then m
             else if String.eqb m EmptyString then name
             else name ++ ": " ++ m
         | Thrown value => value
         end
    /\ (state_of s = NOT_LOADED ->
        state_of (snd (initializeModel env f s)) = NOT_LOADED).
Proof.
  intros Hfault. rewrite initializeModel_outcome.
  destruct f as [[p|] [d|] [t|]]; simpl in *;
    try (destruct Hfault as [H | [H | H]]; congruence);
    match goal with
    | |- context [initialization_error ?c] =>
        exists c, (exn_to_string c);
        (split; [rewrite !elem_of_cons; auto|]);
        (split; [reflexivity|]); (split; [reflexivity|]);
        (split; [destruct c; reflexivity | tauto])
    end.
Qed.

Lemma initializeModel_failure_keeps_state_witness :
  initializeModel
    {| hermes := true; navigator := None; has_window := false; has_document := false |}
    {| at_platform := None; at_dispatch := None; at_delay := Some (Error "timer") |}
    (constructor None)
  = (Throw (Error "Failed to initialize Gemma 3n: Error: timer"), constructor None).
Proof.
  destruct (initializeModel_failure_keeps_state
              {| hermes := true; navigator := None;
                 has_window := false; has_document := false |}
              {| at_platform := None; at_dispatch := None;
                 at_delay := Some (Error "timer") |}
              (constructor None)) as (cause & text & _ & Hc & H & Ht & _).
  - right; right; simpl; discriminate.
  - simpl in Hc. injection Hc as ->. simpl in Ht. rewrite Ht in H. exact H.
Defined.

(** C7. [unloadModel] never throws.  With a handle installed it drops
    the handle and clears the loaded flag; without one it changes
    nothing.  A second call in a row is a no-op. *)
Theorem unloadModel_idempotent (s : Service) :
  fst (unloadModel s) = Ok tt
  /\ snd (unloadModel s)
     = match textGenerator s with
       | Some _ => {| textGenerator := None; isModelLoaded := false; config := config s |}
       | None => s
       end
  /\ state_of (snd (unloadModel s))
     = match textGenerator s with Some _ => NOT_LOADED | None => state_of s end
  /\ unloadModel (snd (unloadModel s)) = (Ok tt, snd (unloadModel s)).
Proof.
  destruct s as [[g|] l c]; repeat split.
Qed.

(** C8. [analyzeImage] and [processAudio] throw their
    not-implemented error on every input and in every state of the
    service, and leave the service as it was. *)
Theorem multimodal_stubs_always_fail
    (s : Service) (uri : string) (prompt : option string) (task : option AudioTask)
    (options : option Options) :
  analyzeImage uri prompt options s
  = (Throw (Error "Image analysis not yet implemented. Requires multimodal Gemma 3n setup."), s)
  /\ processAudio uri task options s
     = (Throw (Error "Audio processing not yet implemented. Requires audio-enabled Gemma 3n setup."), s).
Proof. split; reflexivity. Qed.

(** C9. The options argument is never read: from the same service, with
    the same prompt and the same draws, [generateText] returns the same
    outcome whatever the options are, present or absent. *)
Theorem generateText_ignores_options
    (s : Service) (prompt : string) (options options' : option Options)
    (delay_draw pick : Q) :
  generateText prompt options delay_draw pick s
  = generateText prompt options' delay_draw pick s.
Proof. reflexivity. Qed.

(** ** The handle and the loaded flag *)

Lemma generateWithNativeModel_state (prompt : string) (options : option Options)
    (pick : Q) (s : Service) :
  snd (generateWithNativeModel prompt options pick s) = s.
Proof.
  unfold generateWithNativeModel, mbind, get; simpl.
  destruct (textGenerator s); [|reflexivity].
  repeat (destruct (Js.includes _ _); [reflexivity|]). reflexivity.
Qed.

Lemma generateText_state (prompt : string) (options : option Options)
    (delay_draw pick : Q) (s : Service) :
  snd (generateText prompt options delay_draw pick s) = s.
Proof.
  unfold generateText, mbind, get; simpl.
  destruct (not_ready s); [reflexivity|].
  unfold try_catch, mbind, sleep, step, ret.
  pose proof (generateWithNativeModel_state prompt options pick s) as H.
  destruct (generateWithNativeModel prompt options pick s) as [[a|e] s']; exact H.
Qed.

Lemma generateTextStream_state (prompt : string) (options : option Options)
    (pick : Q) (delay_draws : nat -> Q) (s : Service) :
  snd (generateTextStream prompt options pick delay_draws s) = s.
Proof.
  unfold generateTextStream.
  destruct (not_ready s); [reflexivity|].
  pose proof (generateWithNativeModel_state prompt options pick s) as H.
  destruct (generateWithNativeModel prompt options pick s) as [[a|e] s']; exact H.
Qed.

Lemma after_initialize (env : Env) (f : Faults) (s : Service) :
  after (CallInitialize env f) s = s
  \/ after (CallInitialize env f) s
     = {| textGenerator := Some {| platform := getPlatform env |};
          isModelLoaded := true;
          config := config s |}.
Proof.
  unfold after. rewrite initializeModel_outcome.
  destruct f as [[p|] [d|] [t|]]; simpl; auto.
Qed.

Lemma after_preserves (c : Call) (s : Service) :
  handle_matches_flag s -> handle_matches_flag (after c s).
Proof.
  intros Hs. destruct c.
  - destruct (after_initialize env f s) as [-> | ->]; [exact Hs|].
    unfold handle_matches_flag; simpl. split; eauto.
  - unfold after. now rewrite generateText_state.
  - unfold after. now rewrite generateTextStream_state.
  - unfold after, chat. now rewrite generateText_state.
  - exact Hs.
  - exact Hs.
  - exact Hs.
  - destruct s as [[g|] l cfg]; [|exact Hs].
    unfold handle_matches_flag; simpl. split; [discriminate | intros [x Hx]; discriminate].
Qed.

Lemma constructor_matches (argument : option Gemma3nConfig) :
  handle_matches_flag (constructor argument).
Proof.
  unfold handle_matches_flag; simpl. split; [discriminate | intros [x Hx]; discriminate].
Qed.

Lemma run_preserves (calls : list Call) (s : Service) :
  handle_matches_flag s -> handle_matches_flag (run calls s).
Proof.
  revert s. induction calls as [|c calls IH]; intros s Hs; [exact Hs|].
  apply IH, after_preserves, Hs.
Qed.

(** The tag of an installed handle is a key of [platformResponses]. *)
Lemma reachable_platform_tag (argument : option Gemma3nConfig) (calls : list Call)
    (g : Generator) :
  textGenerator (run calls (constructor argument)) = Some g ->
  platform g = "ios" \/ platform g = "android" \/ platform g = "web".
Proof.
  assert (Hrun : forall (cs : list Call) (s : Service),
            (forall g', textGenerator s = Some g' ->
               platform g' = "ios" \/ platform g' = "android" \/ platform g' = "web") ->
            forall g', textGenerator (run cs s) = Some g' ->
              platform g' = "ios" \/ platform g' = "android" \/ platform g' = "web").
  { induction cs as [|c cs IH]; intros s Hs; [exact Hs|].
    apply IH. intros g' Hg'. destruct c; simpl in Hg'.
    - destruct (after_initialize env f s) as [E | E];
        unfold after in E; rewrite E in Hg'; [now apply Hs|].
      injection Hg' as <-. apply getPlatform_cases.
    - rewrite generateText_state in Hg'. now apply Hs.
    - rewrite generateTextStream_state in Hg'. now apply Hs.
    - unfold chat in Hg'. rewrite generateText_state in Hg'. now apply Hs.
    - now apply Hs.
    - now apply Hs.
    - now apply Hs.
    - destruct s as [[g0|] l cfg]; [discriminate | now apply Hs]. }
  apply Hrun. intros g' Hg'. discriminate Hg'.
Qed.

(** C10. The loaded flag is set exactly when a generator handle is
    installed: this holds of a freshly constructed service, every
    public call keeps it whether the call returns or throws, and so it
    holds after every sequence of calls. *)
Theorem loaded_flag_iff_handle :
  (forall argument : option Gemma3nConfig,
     handle_matches_flag (constructor argument)
     /\ textGenerator (constructor argument) = None
     /\ isModelLoaded (constructor argument) = false)
  /\ (forall (c : Call) (s : Service),
        handle_matches_flag s -> handle_matches_flag (after c s))
  /\ (forall (argument : option Gemma3nConfig) (calls : list Call),
        handle_matches_flag (run calls (constructor argument))).
Proof.
  split; [|split].
  - intros argument. split; [apply constructor_matches | split; reflexivity].
  - apply after_preserves.
  - intros argument calls. apply run_preserves, constructor_matches.
Qed.

(** ** The loaded precondition *)

Lemma generateWithNativeModel_returns (prompt : string) (options : option Options)
    (pick : Q) (s : Service) (g : Generator) :
  textGenerator s = Some g ->
  exists text : string, generateWithNativeModel prompt options pick s = (Ok text, s).
Proof.
  intros Hg. unfold generateWithNativeModel, mbind, get; simpl. rewrite Hg.
  repeat (destruct (Js.includes _ _); [eexists; reflexivity|]).
  eexists; reflexivity.
Qed.

Lemma not_ready_false (s : Service) :
  not_ready s = false <-> is_Some (textGenerator s) /\ isModelLoaded s = true.
Proof.
  unfold not_ready. destruct s as [[g|] [|] c]; simpl; split;
    try discriminate; try (intros [[x Hx] Hl]; discriminate); eauto.
Qed.

Lemma not_ready_unloaded (s : Service) : isModelLoaded s = false -> not_ready s = true.
Proof. unfold not_ready. intros ->. now rewrite orb_true_r. Qed.

Lemma not_ready_no_handle (s : Service) : textGenerator s = None -> not_ready s = true.
Proof. unfold not_ready. intros ->. reflexivity. Qed.

Lemma generateText_not_ready (prompt : string) (options : option Options)
    (delay_draw pick : Q) (s : Service) :
  not_ready s = true ->
  generateText prompt options delay_draw pick s = (Throw not_loaded_error, s).
Proof. intros H. unfold generateText, mbind, get; simpl. now rewrite H. Qed.

Lemma generateText_ready (prompt : string) (options : option Options)
    (delay_draw pick : Q) (s : Service) :
  not_ready s = false ->
  generateText prompt options delay_draw pick s
  = generateWithNativeModel prompt options pick s
  /\ exists text : string,
       generateText prompt options delay_draw pick s = (Ok text, s).
Proof.
  intros H. pose proof H as Hr. apply not_ready_false in Hr as [[g Hg] _].
  destruct (generateWithNativeModel_returns prompt options pick s g Hg) as [text Ht].
  assert (E : generateText prompt options delay_draw pick s = (Ok text, s)).
  { unfold generateText, mbind at 1, get; simpl. rewrite H.
    unfold try_catch, mbind, sleep, step, ret. now rewrite Ht. }
  split; [now rewrite E, Ht | now exists text].
Qed.

Lemma generateTextStream_not_ready (prompt : string) (options : option Options)
    (pick : Q) (delay_draws : nat -> Q) (s : Service) :
  not_ready s = true ->
  generateTextStream prompt options pick delay_draws s
  = ({| yielded := []; completion := Throw not_loaded_error |}, s).
Proof. intros H. unfold generateTextStream. now rewrite H. Qed.

Lemma generateTextStream_ready (prompt : string) (options : option Options)
    (pick : Q) (delay_draws : nat -> Q) (s : Service) (fullResponse : string) :
  not_ready s = false ->
  generateWithNativeModel prompt options pick s = (Ok fullResponse, s) ->
  generateTextStream prompt options pick delay_draws s
  = ({| yielded := stream_loop (Js.split Js.space fullResponse) delay_draws 0
                     (length (Js.split Js.space fullResponse));
        completion := Ok tt |}, s).
Proof. intros H Hfull. unfold generateTextStream. now rewrite H, Hfull. Qed.

Lemma reachable_not_ready (argument : option Gemma3nConfig) (calls : list Call) :
  not_ready (run calls (constructor argument)) = true
  <-> state_of (run calls (constructor argument)) <> LOADED.
Proof.
  pose proof (run_preserves calls _ (constructor_matches argument)) as Hinv.
  set (s := run calls (constructor argument)) in *.
  unfold handle_matches_flag in Hinv. unfold state_of, not_ready.
  destruct (isModelLoaded s) eqn:Hl.
  - assert (Hg : is_Some (textGenerator s)) by now apply Hinv.
    destruct Hg as [g Hg]. rewrite Hg. simpl. split; [discriminate | congruence].
  - rewrite orb_true_r. split; [discriminate | reflexivity].
Qed.

(** C1. After any sequence of calls on a constructed service,
    [generateText], [generateTextStream] and [chat] throw the
    model-not-loaded error exactly when the service is not LOADED.  In
    particular they throw it on a fresh service, on which
    [initializeModel] was never called, and again after [unloadModel]. *)
Theorem not_loaded_error_iff_not_loaded
    (argument : option Gemma3nConfig) (calls : list Call)
    (prompt : string) (messages : list ChatMessage) (options : option Options)
    (delay_draw pick : Q) (delay_draws : nat -> Q) :
  let s := run calls (constructor argument) in
  let fresh := constructor argument in
  let unloaded := after CallUnload s in
  (fst (generateText prompt options delay_draw pick s) = Throw not_loaded_error
   <-> state_of s <> LOADED)
  /\ (completion (fst (generateTextStream prompt options pick delay_draws s))
      = Throw not_loaded_error
      <-> state_of s <> LOADED)
  /\ (fst (chat messages options delay_draw pick s) = Throw not_loaded_error
      <-> state_of s <> LOADED)
  /\ (fst (generateText prompt options delay_draw pick fresh) = Throw not_loaded_error
      /\ fst (generateTextStream prompt options pick delay_draws fresh)
         = {| yielded := []; completion := Throw not_loaded_error |}
      /\ fst (chat messages options delay_draw pick fresh) = Throw not_loaded_error)
  /\ (fst (generateText prompt options delay_draw pick unloaded) = Throw not_loaded_error
      /\ fst (generateTextStream prompt options pick delay_draws unloaded)
         = {| yielded := []; completion := Throw not_loaded_error |}
      /\ fst (chat messages options delay_draw pick unloaded) = Throw not_loaded_error).
Proof.
  intros s fresh unloaded.
  pose proof (reachable_not_ready argument calls) as Hiff. fold s in Hiff.
  assert (Hgen : forall prompt',
            fst (generateText prompt' options delay_draw pick s) = Throw not_loaded_error
            <-> state_of s <> LOADED).
  { intros prompt'. rewrite <- Hiff. destruct (not_ready s) eqn:Hr.
    - rewrite generateText_not_ready by exact Hr. simpl. tauto.
    - destruct (generateText_ready prompt' options delay_draw pick s Hr) as [_ [t Ht]].
      rewrite Ht. simpl. split; discriminate. }
  split; [apply Hgen | split; [| split; [apply Hgen | split]]].
  - rewrite <- Hiff. destruct (not_ready s) eqn:Hr.
    + rewrite generateTextStream_not_ready by exact Hr. simpl. tauto.
    + pose proof Hr as Hr'. apply not_ready_false in Hr' as [[g Hg] _].
      destruct (generateWithNativeModel_returns prompt options pick s g Hg) as [t Ht].
      rewrite (generateTextStream_ready _ _ _ _ _ t Hr Ht). simpl.
      split; discriminate.
  - repeat split.
  - assert (Hu : not_ready unloaded = true).
    { apply not_ready_no_handle. unfold unloaded, after.
      destruct s as [[g|] l c]; reflexivity. }
    unfold chat.
    rewrite !generateText_not_ready, generateTextStream_not_ready by exact Hu.
    repeat split.
Qed.

(** ** Configuration *)

Lemma spread_lookup (caller : Gemma3nConfig) (key : string) :
  spread_over_defaults caller !! key
  = match caller !! key with
    | Some v => Some v
    | None => default_fields !! key
    end.
Proof.
  unfold spread_over_defaults. rewrite lookup_union.
  destruct (caller !! key); [|now rewrite (left_id None _)].
  now destruct (default_fields !! key).
Qed.

(** C5. The constructor's configuration holds, under every key, the
    caller's value when the caller supplies the key and the default
    (maxTokens 512, temperature 0.7, topK 50, quantized true) otherwise;
    after an [initializeModel] that returns, [getModelInfo] reports
    [isLoaded] true, the caller's [modelSize] and that configuration. *)
Theorem getModelInfo_reports_merged_config
    (caller : Gemma3nConfig) (env : Env) (f : Faults) :
  fst (initializeModel env f (constructor (Some caller))) = Ok tt ->
  let merged := config (constructor (Some caller)) in
  (forall key : string,
     merged !! key
     = match caller !! key with
       | Some v => Some v
       | None => default_fields !! key
       end)
  /\ merged !! "maxTokens" = Some (default (JNum (512 # 1)) (caller !! "maxTokens"))
  /\ merged !! "temperature" = Some (default (JNum (7 # 10)) (caller !! "temperature"))
  /\ merged !! "topK" = Some (default (JNum (50 # 1)) (caller !! "topK"))
  /\ merged !! "quantized" = Some (default (JBool true) (caller !! "quantized"))
  /\ merged !! "modelSize" = caller !! "modelSize"
  /\ fst (getModelInfo (snd (initializeModel env f (constructor (Some caller)))))
     = Ok {| isLoaded := true;
             modelSize := get_field caller "modelSize";
             info_config := merged |}.
Proof.
  intros Hok merged. unfold merged; simpl.
  repeat split; try (rewrite spread_lookup; now destruct (caller !! _)).
  - apply spread_lookup.
  - rewrite initializeModel_outcome in *.
    destruct f as [[p|] [d|] [t|]]; try discriminate Hok.
    unfold getModelInfo, mbind, get, ret; simpl.
    unfold get_field. rewrite spread_lookup. now destruct (caller !! "modelSize").
Qed.

Lemma getModelInfo_reports_merged_config_witness :
  fst (getModelInfo
         (snd (initializeModel
                 {| hermes := false; navigator := None;
                    has_window := true; has_document := true |}
                 no_faults
                 (constructor
                    (Some (<["modelSize" := JStr "E4B"]>
                             (<["maxTokens" := JNum (256 # 1)]> ∅)))))))
  = Ok {| isLoaded := true;
          modelSize := JStr "E4B";
          info_config :=
            config (constructor
                      (Some (<["modelSize" := JStr "E4B"]>
                               (<["maxTokens" := JNum (256 # 1)]> ∅)))) |}.
Proof.
  refine (proj2 (proj2 (proj2 (proj2 (proj2 (proj2
            (getModelInfo_reports_merged_config
               (<["modelSize" := JStr "E4B"]> (<["maxTokens" := JNum (256 # 1)]> ∅))
               {| hermes := false; navigator := None;
                  has_window := true; has_document := true |}
               no_faults _))))))).
  reflexivity.
Defined.

(** ** Occurrence of a substring *)

Lemma startsWith_spec (s t : string) :
  Js.startsWith s t = true <-> exists r : string, s = t ++ r.
Proof.
  revert s. induction t as [|b t IH]; intros s.
  - split; [intros _; exists s; reflexivity | intros _; destruct s; reflexivity].
  - destruct s as [|a s]; simpl.
    + split; [discriminate | intros [r Hr]; discriminate].
    + destruct (Ascii.eqb_spec a b) as [-> | Hne].
      * rewrite IH. split; intros [r Hr]; exists r.
        -- rewrite append_cons. now f_equal.
        -- rewrite append_cons in Hr. now injection Hr.
      * split; [discriminate|]. intros [r Hr].
        rewrite append_cons in Hr. injection Hr as Hab _. contradiction.
Qed.

Lemma includes_unfold (s t : string) :
  Js.includes s t
  = Js.startsWith s t
    || match s with
       | EmptyString => false
       | String _ s' => Js.includes s' t
       end.
Proof. destruct s; reflexivity. Qed.

Lemma includes_spec (s t : string) : Js.includes s t = true <-> contains s t.
Proof.
  unfold contains. induction s as [|a s IH]; rewrite includes_unfold.
  - rewrite orb_false_r, startsWith_spec. split.
    + intros [r Hr]. exists EmptyString, r. exact Hr.
    + intros [l [r Hr]]. destruct l; [now exists r | discriminate].
  - rewrite orb_true_iff, startsWith_spec, IH. split.
    + intros [[r Hr] | [l [r Hr]]].
      * exists EmptyString, r. exact Hr.
      * exists (String a l), r. rewrite append_cons. now f_equal.
    + intros [[|c l] [r Hr]].
      * left. now exists r.
      * right. rewrite append_cons in Hr. injection Hr as _ Hs. now exists l, r.
Qed.

Lemma includes_false_spec (s t : string) : Js.includes s t = false <-> ~ contains s t.
Proof.
  rewrite <- includes_spec. destruct (Js.includes s t); split; congruence.
Qed.

(** ** The excerpt of the prompt *)


Lemma js_substring_from_start (s : string) (n : nat) :
  Js.substring s 0 n = String.substring 0 n s.
Proof. unfold Js.substring. now rewrite Nat.min_0_l, Nat.max_0_l, Nat.sub_0_r. Qed.

(** ** The draw *)

Local Open Scope Z_scope.

Lemma round_nearest_even_bounds (n bits : Z) :
  0 <= bits ->
  2 * (Js.round_nearest_even n bits * 2 ^ bits) <= 2 * n + 2 ^ bits
  /\ 2 * n <= 2 * (Js.round_nearest_even n bits * 2 ^ bits) + 2 ^ bits.
Proof.
  intros Hb. unfold Js.round_nearest_even.
  assert (Hp : 0 < 2 ^ bits) by (apply Z.pow_pos_nonneg; lia).
  pose proof (Z.div_mod n (2 ^ bits) ltac:(lia)) as Hdm.
  pose proof (Z.mod_pos_bound n (2 ^ bits) Hp) as Hmod.
  set (q := n / 2 ^ bits) in *. set (P := 2 ^ bits) in *.
  destruct (Z.ltb_spec (2 * (n - q * P)) P);
    [|destruct (Z.ltb_spec P (2 * (n - q * P))); [|destruct (Z.even q)]]; nia.
Qed.

(** The bits a product below 2^55 loses when it is cut to 53 bits. *)
Lemma dropped_bits (p : Z) :
  0 <= p < 2 ^ 55 ->
  let d := Z.max 0 (Z.log2 p - 52) in
  (p < 2 ^ 53 /\ d = 0) \/ (2 ^ 53 <= p < 2 ^ 54 /\ d = 1) \/ (2 ^ 54 <= p /\ d = 2).
Proof.
  intros Hp d. unfold d.
  destruct (Z.lt_ge_cases p (2 ^ 53)) as [H53 | H53].
  - left. split; [exact H53|].
    destruct (Z.eq_dec p 0) as [-> | Hnz]; [reflexivity|].
    assert (Z.log2 p < 53) by (apply Z.log2_lt_pow2; lia). lia.
  - destruct (Z.lt_ge_cases p (2 ^ 54)) as [H54 | H54].
    + right; left. split; [lia|].
      rewrite (Z.log2_unique p 53); [reflexivity | lia | ].
      change (2 ^ 53 <= p < 2 ^ 54). lia.
    + right; right. split; [lia|].
      rewrite (Z.log2_unique p 54); [reflexivity | lia | ].
      change (2 ^ 54 <= p < 2 ^ 55). lia.
Qed.

Lemma pow2_lt_exponent (e : Z) (c : Z) :
  0 <= e -> 0 <= c -> 2 ^ c < 2 ^ e -> c < e.
Proof. intros He Hc H. apply (Z.pow_lt_mono_r_iff 2); lia. Qed.

(** The index [Math.floor(r * 3)] of a double [r] in the unit interval
    is 0, 1 or 2; it is [k] only for [r] below the end of the [k]-th
    third, and at most 2^-53 below its start: the product is rounded
    before its floor is taken. *)
Lemma floor_scaled_three (r : Q) :
  is_double r -> (0 <= r)%Q -> (r < 1)%Q ->
  exists k : nat,
    Js.floor_scaled r 3%nat = Z.of_nat k /\ (k < 3)%nat
    /\ (Z.of_nat k # 3 <= r + (1 # 9007199254740992))%Q
    /\ (r < (Z.of_nat k + 1) # 3)%Q.
Proof.
  intros (e & He & Hden & Hnum) Hlo Hhi. destruct r as [a b].
  unfold Js.floor_scaled, Qle, Qlt, Qplus in *. simpl in *.
  rewrite Z.mul_1_r in Hlo, Hhi.
  assert (Ha : Z.abs a = a) by lia. rewrite Ha in *.
  set (B := Z.pos b) in *.
  assert (HB : 0 < B) by (unfold B; lia).
  change (Z.of_nat 3) with 3.
  destruct (dropped_bits (a * 3) ltac:(lia)) as [[Hp ->] | [[Hp ->] | [Hp ->]]].
  - (* the product is exact *)
    assert (Hv : Js.round_nearest_even (a * 3) 0 * 2 ^ 0 = a * 3).
    { unfold Js.round_nearest_even. rewrite Z.pow_0_r, Z.div_1_r.
      destruct (Z.ltb_spec (2 * (a * 3 - a * 3 * 1)) 1); lia. }
    rewrite Hv.
    destruct (Z.eq_dec a 0) as [-> | Hnz].
    { exists 0%nat. simpl. rewrite Z.div_0_l by lia. repeat split; lia. }
    assert (Hs : Z.sgn a = 1) by (apply Z.sgn_pos; lia). rewrite Hs, Z.mul_1_l.
    pose proof (Z.div_mod (a * 3) B ltac:(lia)) as Hdm.
    pose proof (Z.mod_pos_bound (a * 3) B HB) as Hmod.
    set (k := (a * 3) / B) in *.
    assert (Hk : 0 <= k < 3) by nia.
    exists (Z.to_nat k). rewrite Z2Nat.id by lia.
    repeat split; try lia; try nia.
    all: rewrite ?Pos2Z.inj_mul; fold B; nia.
  - (* one bit is dropped *)
    assert (Hs : Z.sgn a = 1) by (apply Z.sgn_pos; lia). rewrite Hs, Z.mul_1_l.
    destruct (round_nearest_even_bounds (a * 3) 1 ltac:(lia)) as [Hup Hdown].
    set (v := Js.round_nearest_even (a * 3) 1) in *.
    change (2 ^ 1) with 2 in *.
    assert (He1 : 1 <= e).
    { assert (2 ^ 0 < 2 ^ e) by (rewrite <- Hden; simpl; lia).
      pose proof (pow2_lt_exponent e 0 ltac:(lia) ltac:(lia) H). lia. }
    assert (HB2 : B = 2 * 2 ^ (e - 1)).
    { rewrite Hden. rewrite <- Z.pow_succ_r by lia. f_equal. lia. }
    assert (HP : 0 < 2 ^ (e - 1)) by (apply Z.pow_pos_nonneg; lia).
    set (P := 2 ^ (e - 1)) in *.
    pose proof (Z.div_mod (v * 2) B ltac:(lia)) as Hdm.
    pose proof (Z.mod_pos_bound (v * 2) B HB) as Hmod.
    set (k := (v * 2) / B) in *.
    assert (Hk : 0 <= k < 3) by nia.
    exists (Z.to_nat k). rewrite Z2Nat.id by lia.
    repeat split; try lia; try nia.
    all: rewrite ?Pos2Z.inj_mul; fold B; nia.
  - (* two bits are dropped *)
    assert (Hs : Z.sgn a = 1) by (apply Z.sgn_pos; lia). rewrite Hs, Z.mul_1_l.
    destruct (round_nearest_even_bounds (a * 3) 2 ltac:(lia)) as [Hup Hdown].
    set (v := Js.round_nearest_even (a * 3) 2) in *.
    change (2 ^ 2) with 4 in *.
    assert (He2 : 2 <= e).
    { assert (2 ^ 1 < 2 ^ e) by (rewrite <- Hden; simpl; lia).
      pose proof (pow2_lt_exponent e 1 ltac:(lia) ltac:(lia) H). lia. }
    assert (HB4 : B = 4 * 2 ^ (e - 2)).
    { rewrite Hden. change 4 with (2 ^ 2). rewrite <- Z.pow_add_r by lia.
      f_equal. lia. }
    assert (HP : 0 < 2 ^ (e - 2)) by (apply Z.pow_pos_nonneg; lia).
    set (P := 2 ^ (e - 2)) in *.
    pose proof (Z.div_mod (v * 4) B ltac:(lia)) as Hdm.
    pose proof (Z.mod_pos_bound (v * 4) B HB) as Hmod.
    set (k := (v * 4) / B) in *.
    assert (Hk : 0 <= k < 3) by nia.
    exists (Z.to_nat k). rewrite Z2Nat.id by lia.
    repeat split; try lia; try nia.
    all: rewrite ?Pos2Z.inj_mul; fold B; nia.
Qed.

Local Close Scope Z_scope.

(** The rounding shows at the two draws just below one third and two
    thirds: their products with 3 round up to 1 and to 2. *)
Lemma floor_scaled_at_the_boundaries :
  Js.floor_scaled (6004799503160661 # 18014398509481984) 3 = 1%Z
  /\ Js.floor_scaled (6004799503160661 # 9007199254740992) 3 = 2%Z
  /\ Js.floor_scaled (6004799503160660 # 9007199254740992) 3 = 1%Z
  /\ Js.floor_scaled (9007199254740991 # 9007199254740992) 3 = 2%Z.
Proof. repeat split; vm_compute; reflexivity. Qed.

Lemma element_of_nat {A} (l : list A) (k : nat) : element l (Z.of_nat k) = l !! k.
Proof.
  unfold element. destruct (Z.ltb_spec (Z.of_nat k) 0); [lia|].
  now rewrite Nat2Z.id.
Qed.

(** ** The selected response *)

(** The responses [generateWithNativeModel] draws from under a tag the
    initializers write: the tag's own list. *)
Lemma responses_by_platform (key prompt : string) :
  key = "ios" \/ key = "android" \/ key = "web" ->
  exists (templates : list Template) (capital : string),
    select_responses prompt key = TemplateList (map (instantiate prompt) templates)
    /\ length templates = 3
    /\ capitalize key = capital
    /\ (key = "ios" /\ templates = ios_templates /\ capital = "Ios"
        \/ key = "android" /\ templates = android_templates /\ capital = "Android"
        \/ key = "web" /\ templates = web_templates /\ capital = "Web").
Proof.
  intros [-> | [-> | ->]].
  - exists ios_templates, "Ios". repeat split; auto.
  - exists android_templates, "Android". repeat split; auto.
  - exists web_templates, "Web". repeat split; auto 6.
Qed.

(** Under any other tag the lookup finds nothing and the web list is
    taken, unless the tag names a member inherited from
    [Object.prototype]: that member is taken, and the response is
    [undefined]. *)
Lemma responses_of_other_tags (key prompt : string) (pick : Q) :
  key <> "ios" -> key <> "android" -> key <> "web" ->
  (key ∉ inherited_names ->
   select_responses prompt key
   = TemplateList (map (instantiate prompt) web_templates))
  /\ (key ∈ inherited_names ->
      pick_response (select_responses prompt key) pick = None).
Proof.
  intros Hios Handroid Hweb.
  unfold select_responses, platformResponses, own_property.
  destruct (String.eqb_spec "ios" key); [congruence|].
  destruct (String.eqb_spec "android" key); [congruence|].
  destruct (String.eqb_spec "web" key); [congruence|].
  split; intros Hk.
  - now rewrite bool_decide_eq_false_2.
  - now rewrite bool_decide_eq_true_2.
Qed.

Lemma template_lengths (templates : list Template) (k : nat) (t : Template) :
  templates = ios_templates \/ templates = android_templates
  \/ templates = web_templates ->
  templates !! k = Some t ->
  35 <= snd (fst t) <= 45.
Proof.
  intros [-> | [-> | ->]] Hk;
    (destruct k as [|[|[|k]]]; simpl in Hk; [| | |discriminate]);
    injection Hk as <-; simpl; lia.
Qed.

Lemma lookup_map {A B} (f : A -> B) (l : list A) (k : nat) :
  map f l !! k = f <$> (l !! k).
Proof.
  revert k. induction l as [|x l IH]; intros [|k]; simpl; auto.
Qed.



(** ** Splitting on the space character and joining back *)

Lemma split_nonempty (sep : ascii) (s : string) : Js.split sep s <> [].
Proof.
  destruct s as [|c s]; simpl; [discriminate|].
  destruct (Ascii.eqb c sep); [discriminate|].
  destruct (Js.split sep s); discriminate.
Qed.

Lemma join_cons (sep w : string) (ws : list string) :
  ws <> [] -> Js.join sep (w :: ws) = w ++ sep ++ Js.join sep ws.
Proof. destruct ws; [contradiction | reflexivity]. Qed.

Lemma join_split (sep : ascii) (s : string) :
  Js.join (String sep EmptyString) (Js.split sep s) = s.
Proof.
  induction s as [|c s IH]; [reflexivity|].
  pose proof (split_nonempty sep s) as Hne. simpl.
  destruct (Ascii.eqb_spec c sep) as [-> | Hc].
  - rewrite join_cons by exact Hne. rewrite IH. reflexivity.
  - destruct (Js.split sep s) as [|w [|w' ws]]; [contradiction | |].
    + simpl in *. now f_equal.
    + change (Js.join (String sep EmptyString) (String c w :: w' :: ws))
        with (String c (Js.join (String sep EmptyString) (w :: w' :: ws))).
      now f_equal.
Qed.

Lemma split_tokens_free_of_separator (sep : ascii) (s w : string) :
  w ∈ Js.split sep s -> ~ contains w (String sep EmptyString).
Proof.
  revert w. induction s as [|c s IH]; intros w Hw; simpl in Hw.
  - apply list_elem_of_singleton in Hw as ->.
    intros [[|a l] [r Hr]]; discriminate.
  - destruct (Ascii.eqb_spec c sep) as [-> | Hc].
    + apply elem_of_cons in Hw as [-> | Hw]; [|now apply IH].
      intros [[|a l] [r Hr]]; discriminate.
    + pose proof (split_nonempty sep s) as Hne.
      destruct (Js.split sep s) as [|w0 ws]; [contradiction|].
      apply elem_of_cons in Hw as [-> | Hw].
      * intros [[|a l] [r Hr]].
        -- injection Hr as Hcs _. contradiction.
        -- rewrite append_cons in Hr. injection Hr as _ Hr.
           apply (IH w0); [apply list_elem_of_here | now exists l, r].
      * apply IH. now apply list_elem_of_further.
Qed.

Lemma join_take_snoc (sep : string) (ws : list string) (i : nat) (w : string) :
  ws !! S i = Some w ->
  Js.join sep (take (S (S i)) ws) = Js.join sep (take (S i) ws) ++ sep ++ w.
Proof.
  revert i. induction ws as [|w0 ws IH]; intros i Hw; [discriminate|].
  destruct ws as [|w1 ws]; [discriminate|].
  destruct i as [|i].
  - simpl in Hw. injection Hw as ->. destruct ws; reflexivity.
  - change (take (S (S (S i))) (w0 :: w1 :: ws))
      with (w0 :: take (S (S i)) (w1 :: ws)).
    change (take (S (S i)) (w0 :: w1 :: ws)) with (w0 :: take (S i) (w1 :: ws)).
    rewrite !join_cons by discriminate.
    rewrite (IH i Hw). now rewrite !append_assoc.
Qed.

(** ** The loop of the stream *)

Lemma stream_loop_length (words : list string) (ds : nat -> Q) (i n : nat) :
  length (stream_loop words ds i n) = n.
Proof. revert i. induction n as [|n IH]; intros i; simpl; [reflexivity | now rewrite IH]. Qed.

Lemma stream_loop_lookup (words : list string) (ds : nat -> Q) (i n j : nat) :
  j < n ->
  stream_loop words ds i n !! j = Some (Js.join " " (take (i + j + 1) words)).
Proof.
  revert i j. induction n as [|n IH]; intros i j Hj; [lia|].
  destruct j as [|j]; simpl.
  - now rewrite Nat.add_0_r.
  - rewrite IH by lia. do 3 f_equal. lia.
Qed.

(** C2 (amended). On a LOADED service [generateTextStream] computes the
    full response first, the string [generateText] returns for the same
    pick, and splits it at every space character (U+0020, no other
    whitespace; two adjacent spaces enclose an empty token) into N
    tokens.  It yields exactly N values and then returns; the i-th value
    is the first i tokens joined by single spaces; each value is the
    previous one followed by a space and the next token, so strictly
    longer; the last value is the full response. *)
Theorem generateTextStream_yields_prefixes
    (s : Service) (g : Generator) (prompt : string)
    (options options' : option Options)
    (delay_draw pick : Q) (delay_draws : nat -> Q) :
  textGenerator s = Some g ->
  isModelLoaded s = true ->
  exists fullResponse : string,
    let words := Js.split Js.space fullResponse in
    let out := fst (generateTextStream prompt options pick delay_draws s) in
    fst (generateText prompt options' delay_draw pick s) = Ok fullResponse
    /\ Js.join " " words = fullResponse
    /\ (forall w : string, w ∈ words -> ~ contains w " ")
    /\ completion out = Ok tt
    /\ length (yielded out) = length words
    /\ 0 < length words
    /\ (forall i : nat, i < length words ->
          yielded out !! i = Some (Js.join " " (take (S i) words)))
    /\ (forall (i : nat) (y y' : string),
          yielded out !! i = Some y -> yielded out !! S i = Some y' ->
          exists w : string,
            words !! S i = Some w /\ y' = y ++ " " ++ w
            /\ String.length y < String.length y')
    /\ last (yielded out) = Some fullResponse.
Proof.
  intros Hg Hl.
  assert (Hr : not_ready s = false).
  { apply not_ready_false. split; [now exists g | exact Hl]. }
  destruct (generateWithNativeModel_returns prompt options pick s g Hg) as [full Hfull].
  exists full. intros words out.
  assert (Hout : out = {| yielded := stream_loop words delay_draws 0 (length words);
                          completion := Ok tt |}).
  { unfold out. now rewrite (generateTextStream_ready _ _ _ _ _ full Hr Hfull). }
  assert (Hjoin : Js.join " " words = full) by exact (join_split Js.space full).
  assert (Hpos : 0 < length words).
  { pose proof (split_nonempty Js.space full) as Hne. fold words in Hne.
    destruct words; [contradiction | simpl; lia]. }
  assert (Hith : forall i : nat, i < length words ->
            yielded out !! i = Some (Js.join " " (take (S i) words))).
  { intros i Hi. rewrite Hout. simpl.
    rewrite stream_loop_lookup by exact Hi. do 3 f_equal. lia. }
  rewrite Hout at 1 2. simpl.
  split; [|split; [exact Hjoin | split; [|split; [reflexivity|split;
    [apply stream_loop_length | split; [exact Hpos | split; [exact Hith | split]]]]]]].
  - destruct (generateText_ready prompt options' delay_draw pick s Hr) as [-> _].
    change (generateWithNativeModel prompt options' pick s)
      with (generateWithNativeModel prompt options pick s).
    now rewrite Hfull.
  - intros w Hw. exact (split_tokens_free_of_separator Js.space full w Hw).
  - intros i y y' Hy Hy'.
    assert (Hi : S i < length words).
    { apply lookup_lt_Some in Hy'. rewrite Hout in Hy'. simpl in Hy'.
      now rewrite stream_loop_length in Hy'. }
    rewrite Hith in Hy, Hy' by lia.
    injection Hy as <-. injection Hy' as <-.
    destruct (lookup_lt_is_Some_2 words (S i) Hi) as [w Hw].
    exists w. split; [exact Hw|].
    rewrite (join_take_snoc " " words i w Hw). split; [reflexivity|].
    rewrite !append_length. simpl. lia.
  - rewrite last_lookup, Hout. simpl. rewrite stream_loop_length.
    rewrite stream_loop_lookup by lia.
    replace (0 + Nat.pred (length words) + 1) with (length words) by lia.
    now rewrite firstn_all, Hjoin.
Qed.

Lemma generateTextStream_yields_prefixes_witness :
  exists fullResponse : string,
    fst (generateText "hi" None 0 (1 # 2)
           {| textGenerator := Some {| platform := "android" |};
              isModelLoaded := true;
              config := spread_over_defaults default_argument |})
    = Ok fullResponse
    /\ last (yielded
               (fst (generateTextStream "hi" None (1 # 2) (fun _ => 0%Q)
                       {| textGenerator := Some {| platform := "android" |};
                          isModelLoaded := true;
                          config := spread_over_defaults default_argument |})))
       = Some fullResponse.
Proof.
  destruct (generateTextStream_yields_prefixes
              {| textGenerator := Some {| platform := "android" |};
                 isModelLoaded := true;
                 config := spread_over_defaults default_argument |}
              {| platform := "android" |} "hi" None None 0 (1 # 2) (fun _ => 0%Q)
              eq_refl eq_refl) as [full H].
  exists full. split; apply H.
Defined.

(** C2 as worded fails: with a tab in the prompt the response has one
    more whitespace-separated word than the stream yields values, and
    those words joined by spaces are not the response. *)
Lemma generateTextStream_not_whitespace_words :
  let s := {| textGenerator := Some {| platform := "web" |};
              isModelLoaded := true;
              config := spread_over_defaults default_argument |} in
  let prompt := String "a" (String (ascii_of_nat 9) (String "b" EmptyString)) in
  match fst (generateText prompt None 0 0 s) with
  | Ok fullResponse =>
      length (yielded (fst (generateTextStream prompt None 0 (fun _ => 0%Q) s))) = 20
      /\ length (whitespace_words_spec fullResponse) = 21
      /\ Js.join " " (whitespace_words_spec fullResponse) <> fullResponse
  | Throw _ => False
  end.
Proof.
  vm_compute. repeat split. discriminate.
Qed.

(** * Further properties of the service *)

(** ** Platform resolution *)

(** X1. [getPlatform] answers web exactly when the Hermes marker is
    absent, whatever the user agent and the window and document flags
    are; with the marker it answers android exactly when a user agent is
    available that contains Android and neither iPhone nor iPad, and ios
    in every other case. *)
Theorem getPlatform_by_priority (env : Env) :
  let android_agent :=
    exists ua : string,
      navigator env = Some (Some ua)
      /\ contains ua "Android" /\ ~ contains ua "iPhone" /\ ~ contains ua "iPad" in
  (getPlatform env = "web" <-> hermes env = false)
  /\ (getPlatform env = "android" <-> hermes env = true /\ android_agent)
  /\ (getPlatform env = "ios" <-> hermes env = true /\ ~ android_agent).
Proof.
  intros android_agent. unfold getPlatform.
  destruct env as [[|] nav w d]; simpl in *.
  - destruct nav as [[ua|]|]; simpl.
    + assert (HP : android_agent
                   <-> Js.includes ua "Android" = true
                       /\ Js.includes ua "iPhone" = false
                       /\ Js.includes ua "iPad" = false).
      { rewrite includes_spec, !includes_false_spec. unfold android_agent. split.
        - intros (ua' & Hua & H). injection Hua as <-. tauto.
        - intros H. exists ua. tauto. }
      rewrite HP.
      destruct (Js.includes ua "iPhone"), (Js.includes ua "iPad"),
        (Js.includes ua "Android"); simpl;
        intuition (try discriminate; try congruence).
    + assert (HP : ~ android_agent) by (intros (ua' & Hua & _); discriminate).
      intuition (try discriminate; try congruence).
    + assert (HP : ~ android_agent) by (intros (ua' & Hua & _); discriminate).
      intuition (try discriminate; try congruence).
  - destruct (w && d); intuition (try discriminate; try congruence).
Qed.

(** ** Lifecycle *)

(** X2. A returning [initializeModel] overwrites whatever an earlier
    call left: the handle carries the platform resolved in this call,
    and a call that precedes it, failed or not, makes no difference. *)
Theorem initializeModel_last_wins (env1 env2 : Env) (f1 : Faults) (s : Service) :
  initializeModel env2 no_faults (snd (initializeModel env1 f1 s))
  = initializeModel env2 no_faults s
  /\ initializeModel env2 no_faults s
     = (Ok tt, {| textGenerator := Some {| platform := getPlatform env2 |};
                  isModelLoaded := true;
                  config := config s |}).
Proof.
  rewrite !initializeModel_outcome.
  destruct f1 as [[p|] [d|] [t|]]; split; reflexivity.
Qed.

(** X3. [initializeModel] followed by [unloadModel] ends without handle
    and with the flag cleared, from every state; from a constructed
    service the pair of calls gives back the constructed service. *)
Theorem initialize_then_unload (env : Env) (s : Service)
    (argument : option Gemma3nConfig) :
  unloadModel (snd (initializeModel env no_faults s))
  = (Ok tt, {| textGenerator := None; isModelLoaded := false; config := config s |})
  /\ run [CallInitialize env no_faults; CallUnload] (constructor argument)
     = constructor argument.
Proof.
  unfold run, after. simpl fold_left. rewrite !initializeModel_outcome.
  split; reflexivity.
Qed.

(** X4. No method writes the configuration: after every sequence of
    calls [getModelInfo] still reports the configuration the constructor
    merged and its model size, and reports the loaded flag as it is. *)
Theorem config_is_never_written (argument : option Gemma3nConfig) (calls : list Call) :
  let s := run calls (constructor argument) in
  let merged := spread_over_defaults (default default_argument argument) in
  config s = merged
  /\ getModelInfo s
     = (Ok {| isLoaded := isModelLoaded s;
              modelSize := get_field merged "modelSize";
              info_config := merged |}, s).
Proof.
  intros s merged.
  assert (Hrun : forall (cs : list Call) (s0 : Service), config (run cs s0) = config s0).
  { induction cs as [|c cs IH]; intros s0; [reflexivity|].
    change (run (c :: cs) s0) with (run cs (after c s0)). rewrite IH.
    destruct c; simpl.
    - destruct (after_initialize env f s0) as [E | E]; unfold after in E;
        now rewrite E.
    - now rewrite generateText_state.
    - now rewrite generateTextStream_state.
    - unfold chat. now rewrite generateText_state.
    - reflexivity.
    - reflexivity.
    - reflexivity.
    - destruct s0 as [[g|] l cfg]; reflexivity. }
  assert (Hc : config s = merged) by (unfold s; now rewrite Hrun).
  split; [exact Hc|].
  unfold getModelInfo, mbind, get, ret. now rewrite Hc.
Qed.

(** X5. Only [initializeModel] and [unloadModel] change the service:
    every other call, returning or throwing, leaves it exactly as it
    was. *)
Theorem only_lifecycle_calls_write (c : Call) (s : Service) :
  match c with
  | CallInitialize _ _ | CallUnload => True
  | _ => after c s = s
  end.
Proof.
  destruct c; simpl; trivial.
  - apply generateText_state.
  - apply generateTextStream_state.
  - unfold chat. apply generateText_state.
Qed.

(** X6. After every sequence of calls an installed handle carries a tag
    that is a key of the response table, so the fallback to the web
    list is never taken; and without a handle the flag is cleared. *)
Theorem handle_tag_is_table_key
    (argument : option Gemma3nConfig) (calls : list Call) (prompt : string) :
  match textGenerator (run calls (constructor argument)) with
  | Some g =>
      platform g ∈ ["ios"; "android"; "web"]
      /\ is_Some (own_property (platformResponses prompt) (platform g))
  | None => isModelLoaded (run calls (constructor argument)) = false
  end.
Proof.
  pose proof (reachable_platform_tag argument calls) as Htag.
  pose proof (run_preserves calls _ (constructor_matches argument)) as Hinv.
  destruct (textGenerator (run calls (constructor argument))) as [g|] eqn:Hg.
  - destruct (Htag g eq_refl) as [H | [H | H]]; rewrite H;
      (split; [rewrite !elem_of_cons; auto | eexists; reflexivity]).
  - unfold handle_matches_flag in Hinv. rewrite Hg in Hinv.
    destruct (isModelLoaded _); [|reflexivity].
    destruct Hinv as [Hinv _]. destruct (Hinv eq_refl) as [x Hx]. discriminate.
Qed.

(** ** The stream, further *)

Lemma split_length (sep : ascii) (s : string) :
  length (Js.split sep s) = S (count_char sep s).
Proof.
  induction s as [|c s IH]; [reflexivity|].
  pose proof (split_nonempty sep s) as Hne. simpl.
  destruct (Ascii.eqb c sep); simpl; [now rewrite IH|].
  destruct (Js.split sep s) as [|w ws]; [contradiction | exact IH].
Qed.

Lemma join_take_prefix (sep : string) (ws : list string) (k : nat) :
  0 < k -> exists rest : string, Js.join sep ws = Js.join sep (take k ws) ++ rest.
Proof.
  revert k. induction ws as [|w ws IH]; intros k Hk.
  - exists EmptyString. now destruct k.
  - destruct k as [|k]; [lia|]. destruct ws as [|w' ws].
    + exists EmptyString. destruct k; simpl; now rewrite append_empty_r.
    + destruct k as [|k].
      * exists (sep ++ Js.join sep (w' :: ws)). reflexivity.
      * destruct (IH (S k) ltac:(lia)) as [rest Hrest].
        exists rest.
        change (take (S (S k)) (w :: w' :: ws)) with (w :: take (S k) (w' :: ws)).
        rewrite (join_cons sep w (w' :: ws)) by discriminate.
        rewrite (join_cons sep w (take (S k) (w' :: ws))) by (simpl; discriminate).
        rewrite Hrest. now rewrite !append_assoc.
Qed.

(** X7. On a LOADED service the stream yields one value more than the
    full response has space characters. *)
Theorem stream_count_is_spaces_plus_one
    (s : Service) (g : Generator) (prompt : string) (options : option Options)
    (delay_draw pick : Q) (delay_draws : nat -> Q) :
  textGenerator s = Some g ->
  isModelLoaded s = true ->
  exists fullResponse : string,
    fst (generateText prompt options delay_draw pick s) = Ok fullResponse
    /\ length (yielded (fst (generateTextStream prompt options pick delay_draws s)))
       = S (count_char Js.space fullResponse).
Proof.
  intros Hg Hl.
  assert (Hr : not_ready s = false).
  { apply not_ready_false. split; [now exists g | exact Hl]. }
  destruct (generateWithNativeModel_returns prompt options pick s g Hg) as [full Hfull].
  exists full. split.
  - destruct (generateText_ready prompt options delay_draw pick s Hr) as [-> _].
    now rewrite Hfull.
  - rewrite (generateTextStream_ready _ _ _ _ _ full Hr Hfull). simpl.
    rewrite stream_loop_length. apply split_length.
Qed.

Lemma stream_count_is_spaces_plus_one_witness :
  exists fullResponse : string,
    length (yielded
              (fst (generateTextStream "why?" None (1 # 3) (fun _ => 0%Q)
                      {| textGenerator := Some {| platform := "ios" |};
                         isModelLoaded := true;
                         config := spread_over_defaults default_argument |})))
    = S (count_char Js.space fullResponse).
Proof.
  destruct (stream_count_is_spaces_plus_one
              {| textGenerator := Some {| platform := "ios" |};
                 isModelLoaded := true;
                 config := spread_over_defaults default_argument |}
              {| platform := "ios" |} "why?" None 0 (1 # 3) (fun _ => 0%Q)
              eq_refl eq_refl) as [full [_ H]].
  exists full. exact H.
Defined.

(** X8. On a LOADED service every value the stream yields is a prefix
    of the full response, so a consumer that stops early holds a true
    beginning of it. *)
Theorem stream_values_are_prefixes
    (s : Service) (g : Generator) (prompt : string) (options : option Options)
    (delay_draw pick : Q) (delay_draws : nat -> Q) :
  textGenerator s = Some g ->
  isModelLoaded s = true ->
  exists fullResponse : string,
    fst (generateText prompt options delay_draw pick s) = Ok fullResponse
    /\ forall y : string,
         y ∈ yielded (fst (generateTextStream prompt options pick delay_draws s)) ->
         exists rest : string, fullResponse = y ++ rest.
Proof.
  intros Hg Hl.
  assert (Hr : not_ready s = false).
  { apply not_ready_false. split; [now exists g | exact Hl]. }
  destruct (generateWithNativeModel_returns prompt options pick s g Hg) as [full Hfull].
  exists full. split.
  - destruct (generateText_ready prompt options delay_draw pick s Hr) as [-> _].
    now rewrite Hfull.
  - rewrite (generateTextStream_ready _ _ _ _ _ full Hr Hfull). simpl.
    intros y Hy. apply list_elem_of_lookup in Hy as [i Hi].
    pose proof (lookup_lt_Some _ _ _ Hi) as Hlt.
    rewrite stream_loop_length in Hlt.
    rewrite stream_loop_lookup in Hi by exact Hlt. injection Hi as <-.
    destruct (join_take_prefix " " (Js.split Js.space full) (0 + i + 1) ltac:(lia))
      as [rest Hrest].
    exists rest.
    transitivity (Js.join " " (Js.split Js.space full));
      [symmetry; exact (join_split Js.space full) | exact Hrest].
Qed.

Lemma stream_values_are_prefixes_witness :
  exists fullResponse : string,
    forall y : string,
      y ∈ yielded
            (fst (generateTextStream "why?" None (1 # 3) (fun _ => 0%Q)
                    {| textGenerator := Some {| platform := "web" |};
                       isModelLoaded := true;
                       config := spread_over_defaults default_argument |})) ->
      exists rest : string, fullResponse = y ++ rest.
Proof.
  destruct (stream_values_are_prefixes
              {| textGenerator := Some {| platform := "web" |};
                 isModelLoaded := true;
                 config := spread_over_defaults default_argument |}
              {| platform := "web" |} "why?" None 0 (1 # 3) (fun _ => 0%Q)
              eq_refl eq_refl) as [full [_ H]].
  exists full. exact H.
Defined.

(** ** The chat template, further *)

Lemma formatChatPrompt_step_piece (prompt : string) (m : RawMessage) :
  formatChatPrompt_step prompt m = prompt ++ formatChatPrompt_step EmptyString m.
Proof.
  unfold formatChatPrompt_step.
  destruct (String.eqb (role m) "system"); [reflexivity|].
  destruct (String.eqb (role m) "user"); [reflexivity|].
  destruct (String.eqb (role m) "assistant"); [reflexivity|].
  symmetry. apply append_empty_r.
Qed.

Lemma formatChatPrompt_fold_from (ms : list RawMessage) (prompt : string) :
  fold_left formatChatPrompt_step ms prompt
  = prompt ++ fold_left formatChatPrompt_step ms EmptyString.
Proof.
  revert prompt. induction ms as [|m ms IH]; intros prompt; simpl.
  - symmetry. apply append_empty_r.
  - rewrite IH, (IH (formatChatPrompt_step EmptyString m)).
    rewrite formatChatPrompt_step_piece. apply append_assoc.
Qed.

(** X9. A message whose role is none of system, user and assistant adds
    nothing to the prompt: dropping such messages first gives the same
    prompt. *)
Theorem formatChatPrompt_skips_unknown_roles (messages : list RawMessage) :
  formatChatPrompt messages = formatChatPrompt (List.filter known_role messages).
Proof.
  unfold formatChatPrompt. f_equal.
  generalize EmptyString as prompt.
  induction messages as [|m ms IH]; intros prompt; [reflexivity|]. simpl.
  unfold known_role at 1, formatChatPrompt_step at 2.
  destruct (String.eqb (role m) "system") eqn:Hs; simpl.
  { rewrite IH. unfold formatChatPrompt_step at 3. now rewrite Hs. }
  destruct (String.eqb (role m) "user") eqn:Hu; simpl.
  { rewrite IH. unfold formatChatPrompt_step at 3. now rewrite Hs, Hu. }
  destruct (String.eqb (role m) "assistant") eqn:Ha; simpl.
  { rewrite IH. unfold formatChatPrompt_step at 3. now rewrite Hs, Hu, Ha. }
  apply IH.
Qed.

(** X10. The prompt of an empty conversation is the opened model turn
    alone, and the prompt of two conversations in a row is the turns of
    the first, then the turns of the second, then the opened model
    turn. *)
Theorem formatChatPrompt_of_concatenation (ms1 ms2 : list RawMessage) :
  formatChatPrompt [] = "<start_of_turn>model" ++ Js.newline
  /\ exists turns1 turns2 : string,
       formatChatPrompt ms1 = turns1 ++ formatChatPrompt []
       /\ formatChatPrompt ms2 = turns2 ++ formatChatPrompt []
       /\ formatChatPrompt (ms1 ++ ms2) = turns1 ++ turns2 ++ formatChatPrompt [].
Proof.
  split; [reflexivity|].
  exists (fold_left formatChatPrompt_step ms1 EmptyString),
         (fold_left formatChatPrompt_step ms2 EmptyString).
  unfold formatChatPrompt. simpl fold_left.
  repeat split.
  rewrite fold_left_app, formatChatPrompt_fold_from. apply append_assoc.
Qed.

(** ** What a response shows of the prompt *)

Lemma generateWithNativeModel_shape (prompt : string) (options : option Options)
    (pick : Q) (s : Service) (g : Generator) :
  textGenerator s = Some g ->
  platform g = "ios" \/ platform g = "android" \/ platform g = "web" ->
  is_double pick -> (0 <= pick)%Q -> (pick < 1)%Q ->
  exists (before after suffix : string) (n : nat),
    35 <= n <= 45
    /\ generateWithNativeModel prompt options pick s
       = (Ok ((before ++ Js.dquote ++ String.substring 0 n prompt ++ "..."
                 ++ Js.dquote ++ after) ++ suffix), s).
Proof.
  intros Hg Htag Hdouble Hlo Hhi.
  destruct (responses_by_platform (platform g) prompt Htag)
    as (templates & capital & Hresp & Hlen & _ & Hcases).
  destruct (floor_scaled_three pick Hdouble Hlo Hhi) as [k [Hk [Hk3 _]]].
  destruct (lookup_lt_is_Some_2 templates k ltac:(lia)) as [[[before n] after] Ht].
  assert (Hn : 35 <= n <= 45).
  { apply (template_lengths templates k (before, n, after)); [|exact Ht].
    destruct Hcases as [[_ [H _]] | [[_ [H _]] | [_ [H _]]]]; auto. }
  unfold generateWithNativeModel, mbind, get. cbv beta iota zeta.
  rewrite Hg. cbv beta iota zeta. rewrite Hresp. unfold pick_response.
  rewrite length_map, Hlen, Hk, element_of_nat, lookup_map, Ht.
  unfold instantiate, to_string_or_undefined, ret.
  cbn [fmap option_fmap option_map default].
  rewrite js_substring_from_start.
  repeat (destruct (Js.includes _ _);
          [exists before, after; eexists; exists n; split; [exact Hn | reflexivity]|]).
  exists before, after; eexists; exists n; split; [exact Hn | reflexivity].
Qed.

Lemma substring_app_prefix (p r : string) (n : nat) :
  String.length p <= n ->
  String.substring 0 n (p ++ r) = p ++ String.substring 0 (n - String.length p) r.
Proof.
  revert n. induction p as [|c p IH]; intros n Hn.
  - simpl. now rewrite Nat.sub_0_r.
  - destruct n as [|n]; [simpl in Hn; lia|].
    rewrite !append_cons. simpl. f_equal. apply IH. simpl in Hn. lia.
Qed.

Lemma substring_of_substring (n m : nat) (s : string) :
  n <= m -> String.substring 0 n (String.substring 0 m s) = String.substring 0 n s.
Proof.
  revert m s. induction n as [|n IH]; intros m s Hnm.
  - destruct m, s; reflexivity.
  - destruct m as [|m]; [lia|]. destruct s as [|c s]; [reflexivity|].
    simpl. f_equal. apply IH. lia.
Qed.

Lemma formatChatPrompt_starts_with_markup (messages : list RawMessage) :
  exists rest : string, formatChatPrompt messages = "<start_of_turn>" ++ rest.
Proof.
  unfold formatChatPrompt.
  assert (H : fold_left formatChatPrompt_step messages EmptyString = EmptyString
              \/ exists rest : string,
                   fold_left formatChatPrompt_step messages EmptyString
                   = "<start_of_turn>" ++ rest).
  { induction messages as [|m ms IH]; [now left|].
    simpl. rewrite formatChatPrompt_fold_from.
    assert (Hstep : formatChatPrompt_step EmptyString m = EmptyString
                    \/ exists rest : string,
                         formatChatPrompt_step EmptyString m
                         = "<start_of_turn>" ++ rest).
    { unfold formatChatPrompt_step.
      destruct (String.eqb (role m) "system"); [right; eexists; reflexivity|].
      destruct (String.eqb (role m) "user"); [right; eexists; reflexivity|].
      destruct (String.eqb (role m) "assistant"); [right; eexists; reflexivity|].
      now left. }
    destruct Hstep as [-> | [rest ->]]; [exact IH|].
    right. eexists. apply append_assoc. }
  destruct H as [-> | [rest ->]]; eexists; reflexivity.
Qed.

(** X11. On a LOADED service, reached by any sequence of calls from a
    constructed one, the answer of [chat] quotes the beginning of the
    formatted prompt, which is template markup: whatever the messages
    are, the answer contains an opening quote directly followed by the
    turn marker. *)
Theorem chat_answer_quotes_markup
    (argument : option Gemma3nConfig) (calls : list Call)
    (messages : list ChatMessage) (options : option Options)
    (delay_draw pick : Q) :
  let s := run calls (constructor argument) in
  isModelLoaded s = true ->
  is_double pick ->
  (0 <= pick)%Q ->
  (pick < 1)%Q ->
  exists text : string,
    chat messages options delay_draw pick s = (Ok text, s)
    /\ contains text (Js.dquote ++ "<start_of_turn>").
Proof.
  intros s Hl Hdouble Hlo Hhi.
  pose proof (run_preserves calls _ (constructor_matches argument)) as Hinv.
  fold s in Hinv. destruct Hinv as [Hinv _].
  destruct (Hinv Hl) as [g Hg].
  pose proof (reachable_platform_tag argument calls g Hg) as Htag.
  assert (Hr : not_ready s = false).
  { apply not_ready_false. split; [rewrite Hg; eauto | exact Hl]. }
  unfold chat.
  destruct (generateText_ready (formatChatPrompt (map raw messages))
              options delay_draw pick s Hr) as [-> _].
  destruct (generateWithNativeModel_shape (formatChatPrompt (map raw messages))
              options pick s g Hg Htag Hdouble Hlo Hhi)
    as (before & after & suffix & n & Hn & ->).
  eexists. split; [reflexivity|].
  destruct (formatChatPrompt_starts_with_markup (map raw messages)) as [rest ->].
  rewrite substring_app_prefix by (simpl; lia).
  exists before. eexists. rewrite !append_assoc. reflexivity.
Qed.

Lemma chat_answer_quotes_markup_witness :
  fst (chat [ {| msg_role := USER; msg_content := "hello" |} ] None 0 (3 # 4)
         (run [ CallInitialize
                  {| hermes := true; navigator := None;
                     has_window := false; has_document := false |}
                  no_faults ]
            (constructor None)))
  = Ok ("Core ML inference suggests that " ++ Js.dquote
          ++ "<start_of_turn>user" ++ Js.newline ++ "hello<end_of_turn>"
          ++ Js.newline ++ "<start..." ++ Js.dquote
          ++ " involves several key factors that I'll explain using iOS-optimized processing."
          ++ " Native ios processing ensures optimal performance and accuracy.")
  /\ exists text : string,
       fst (chat [ {| msg_role := USER; msg_content := "hello" |} ] None 0 (3 # 4)
              (run [ CallInitialize
                       {| hermes := true; navigator := None;
                          has_window := false; has_document := false |}
                       no_faults ]
                 (constructor None)))
       = Ok text
       /\ contains text (Js.dquote ++ "<start_of_turn>").
Proof.
  split; [vm_compute; reflexivity|].
  destruct (chat_answer_quotes_markup None
              [ CallInitialize
                  {| hermes := true; navigator := None;
                     has_window := false; has_document := false |}
                  no_faults ]
              [ {| msg_role := USER; msg_content := "hello" |} ] None 0 (3 # 4)
              eq_refl
              ltac:(exists 2%Z; repeat split; simpl; lia)
              ltac:(unfold Qle; simpl; lia)
              ltac:(unfold Qlt; simpl; lia)) as [text [H Hc]].
  exists text. split; [now rewrite H | exact Hc].
Defined.

Lemma instantiate_agree (p1 p2 : string) (t : Template) :
  snd (fst t) <= 45 ->
  Js.substring p1 0 45 = Js.substring p2 0 45 ->
  instantiate p1 t = instantiate p2 t.
Proof.
  destruct t as [[before n] after]. simpl. intros Hn H45.
  rewrite !js_substring_from_start in *.
  rewrite <- (substring_of_substring n 45 p1 Hn), H45.
  now rewrite (substring_of_substring n 45 p2 Hn).
Qed.

Lemma platformResponses_agree (p1 p2 : string) :
  Js.substring p1 0 45 = Js.substring p2 0 45 ->
  platformResponses p1 = platformResponses p2
  /\ map (instantiate p1) web_templates = map (instantiate p2) web_templates.
Proof.
  intros H45. unfold platformResponses, ios_templates, android_templates,
    web_templates. cbn [map].
  rewrite !(fun t Hn => instantiate_agree p1 p2 t Hn H45) by (simpl; lia).
  split; reflexivity.
Qed.

(** X12. A response shows at most the first 45 characters of the
    prompt: two prompts that agree on their first 45 characters and on
    which of how, what and why their lower-cased text contains get the
    same outcome from [generateText] and from [generateTextStream]. *)
Theorem response_reads_45_characters
    (s : Service) (p1 p2 : string) (options : option Options)
    (delay_draw pick : Q) (delay_draws : nat -> Q) :
  Js.substring p1 0 45 = Js.substring p2 0 45 ->
  (contains (Js.toLowerCase p1) "how" <-> contains (Js.toLowerCase p2) "how") ->
  (contains (Js.toLowerCase p1) "what" <-> contains (Js.toLowerCase p2) "what") ->
  (contains (Js.toLowerCase p1) "why" <-> contains (Js.toLowerCase p2) "why") ->
  generateText p1 options delay_draw pick s = generateText p2 options delay_draw pick s
  /\ generateTextStream p1 options pick delay_draws s
     = generateTextStream p2 options pick delay_draws s.
Proof.
  intros H45 Hhow Hwhat Hwhy.
  assert (Hb : forall k : string,
            (contains (Js.toLowerCase p1) k <-> contains (Js.toLowerCase p2) k) ->
            Js.includes (Js.toLowerCase p1) k = Js.includes (Js.toLowerCase p2) k).
  { intros k Hk. rewrite <- !includes_spec in Hk.
    destruct (Js.includes (Js.toLowerCase p1) k),
      (Js.includes (Js.toLowerCase p2) k); try reflexivity;
      [symmetry; now apply Hk | now apply Hk]. }
  destruct (platformResponses_agree p1 p2 H45) as [Htable Hweb].
  assert (Hnative : generateWithNativeModel p1 options pick s
                    = generateWithNativeModel p2 options pick s).
  { unfold generateWithNativeModel, select_responses, mbind, get.
    cbv beta iota zeta.
    now rewrite Htable, Hweb, (Hb _ Hhow), (Hb _ Hwhat), (Hb _ Hwhy). }
  split.
  - unfold generateText, mbind at 1 3, get. cbv beta iota zeta.
    destruct (not_ready s); [reflexivity|].
    unfold try_catch, mbind, sleep, step, ret. now rewrite Hnative.
  - unfold generateTextStream. now rewrite Hnative.
Qed.

Lemma response_reads_45_characters_witness :
  generateText "0123456789012345678901234567890123456789ABCDE and more" None 0 (1 # 2)
    {| textGenerator := Some {| platform := "web" |};
       isModelLoaded := true;
       config := spread_over_defaults default_argument |}
  = generateText "0123456789012345678901234567890123456789ABCDE, or less" None 0 (1 # 2)
      {| textGenerator := Some {| platform := "web" |};
         isModelLoaded := true;
         config := spread_over_defaults default_argument |}.
Proof.
  refine (proj1 (response_reads_45_characters
                   {| textGenerator := Some {| platform := "web" |};
                      isModelLoaded := true;
                      config := spread_over_defaults default_argument |}
                   "0123456789012345678901234567890123456789ABCDE and more"
                   "0123456789012345678901234567890123456789ABCDE, or less"
                   None 0 (1 # 2) (fun _ => 0%Q) _ _ _ _)).
  - reflexivity.
  - rewrite <- !includes_spec. vm_compute. tauto.
  - rewrite <- !includes_spec. vm_compute. tauto.
  - rewrite <- !includes_spec. vm_compute. tauto.
Defined.

Lemma map_chars_app (f : ascii -> ascii) (a b : string) :
  Js.map_chars f (a ++ b) = Js.map_chars f a ++ Js.map_chars f b.
Proof.
  induction a as [|c a IH]; [reflexivity|].
  rewrite append_cons. simpl. rewrite append_cons. f_equal. exact IH.
Qed.

(** X13. The keyword test is blind to letter case and to word
    boundaries: on a LOADED service, a prompt in which how occurs
    anywhere, in any mix of upper and lower case, is answered with the
    how-suffix, whatever else it contains. *)
Theorem how_matches_in_any_case
    (s : Service) (g : Generator) (prompt l k r : string)
    (options : option Options) (delay_draw pick : Q) :
  textGenerator s = Some g ->
  isModelLoaded s = true ->
  prompt = l ++ k ++ r ->
  Js.toLowerCase k = "how" ->
  exists body : string,
    generateText prompt options delay_draw pick s
    = (Ok (body ++ how_suffix (platform g)), s).
Proof.
  intros Hg Hl Hp Hk.
  assert (Hr : not_ready s = false).
  { apply not_ready_false. split; [now exists g | exact Hl]. }
  destruct (generateText_ready prompt options delay_draw pick s Hr) as [-> _].
  assert (Hhow : Js.includes (Js.toLowerCase prompt) "how" = true).
  { apply includes_spec. exists (Js.toLowerCase l), (Js.toLowerCase r).
    rewrite Hp. unfold Js.toLowerCase in *. now rewrite !map_chars_app, Hk. }
  unfold generateWithNativeModel, mbind, get. cbv beta iota zeta.
  rewrite Hg. cbv beta iota zeta. rewrite Hhow.
  eexists. reflexivity.
Qed.

Lemma how_matches_in_any_case_witness :
  exists body : string,
    generateText "What does sHoWer mean?" None 0 (1 # 2)
      {| textGenerator := Some {| platform := "android" |};
         isModelLoaded := true;
         config := spread_over_defaults default_argument |}
    = (Ok (body ++ how_suffix "android"),
       {| textGenerator := Some {| platform := "android" |};
          isModelLoaded := true;
          config := spread_over_defaults default_argument |}).
Proof.
  exact (how_matches_in_any_case
           {| textGenerator := Some {| platform := "android" |};
              isModelLoaded := true;
              config := spread_over_defaults default_argument |}
           {| platform := "android" |}
           "What does sHoWer mean?" "What does s" "HoW" "er mean?"
           None 0 (1 # 2) eq_refl eq_refl eq_refl eq_refl).
Defined.

(** ** Model identifier *)

(** X14. [getModelId] never throws and never changes the service.  It
    returns the E4B identifier exactly when the configured model size
    is the string E4B, and the E2B identifier for every other size,
    a missing or undefined one included; for E2B and E4B the identifier
    spells the size [getModelInfo] reports. *)
Theorem getModelId_matches_model_size (s : Service) :
  exists id : string,
    getModelId s = (Ok id, s)
    /\ (id = "onnx-community/gemma-3n-E4B-it-ONNX"
        <-> get_field (config s) "modelSize" = JStr "E4B")
    /\ (id = "onnx-community/gemma-3n-E2B-it-ONNX"
        <-> get_field (config s) "modelSize" <> JStr "E4B")
    /\ (forall (size : string) (info : ModelInfo),
          fst (getModelInfo s) = Ok info ->
          modelSize info = JStr size ->
          size = "E2B" \/ size = "E4B" ->
          id = "onnx-community/gemma-3n-" ++ size ++ "-it-ONNX").
Proof.
  unfold getModelId, getModelInfo, mbind, get, ret, is_string.
  cbv beta iota zeta.
  destruct (get_field (config s) "modelSize") as [| b | q | size0] eqn:Hsize;
    try (eexists; split; [reflexivity|];
         split; [split; discriminate|];
         split; [split; [discriminate | reflexivity]|];
         intros size info Hinfo Hms; simpl in Hinfo; injection Hinfo as <-;
         simpl in Hms; discriminate).
  destruct (String.eqb_spec size0 "E2B") as [-> | HE2].
  - eexists; split; [reflexivity|].
    split; [split; discriminate|].
    split; [split; [discriminate | reflexivity]|].
    intros size info Hinfo Hms _. simpl in Hinfo. injection Hinfo as <-.
    simpl in Hms. injection Hms as <-. reflexivity.
  - destruct (String.eqb_spec size0 "E4B") as [-> | HE4].
    + eexists; split; [reflexivity|].
      split; [split; reflexivity|].
      split; [split; [discriminate | intros H; now contradiction H]|].
      intros size info Hinfo Hms _. simpl in Hinfo. injection Hinfo as <-.
      simpl in Hms. injection Hms as <-. reflexivity.
    + eexists; split; [reflexivity|].
      split; [split; [discriminate | intros H; injection H as ->; contradiction]|].
      split; [split; [intros _ H; injection H as ->; contradiction | reflexivity]|].
      intros size info Hinfo Hms Hcases. simpl in Hinfo. injection Hinfo as <-.
      simpl in Hms. injection Hms as <-. destruct Hcases; contradiction.
Qed.

(** * Properties of the presets and of the callers *)

(** ** Complete configurations *)

Lemma default_fields_keys (key : string) :
  default_fields !! key = None
  \/ key = "maxTokens" \/ key = "temperature" \/ key = "topK" \/ key = "quantized".
Proof.
  unfold default_fields.
  destruct (decide (key = "maxTokens")) as [-> | H1]; [auto|].
  destruct (decide (key = "temperature")) as [-> | H2]; [auto|].
  destruct (decide (key = "topK")) as [-> | H3]; [auto|].
  destruct (decide (key = "quantized")) as [-> | H4]; [auto 6|].
  left. now rewrite !lookup_insert_ne, lookup_empty by congruence.
Qed.

(** X15. A caller that supplies maxTokens, temperature, topK and
    quantized gets its own configuration back from the constructor,
    unchanged: no default is mixed in and no key is added. *)
Theorem complete_config_is_kept (caller : Gemma3nConfig) :
  is_Some (caller !! "maxTokens") ->
  is_Some (caller !! "temperature") ->
  is_Some (caller !! "topK") ->
  is_Some (caller !! "quantized") ->
  config (constructor (Some caller)) = caller.
Proof.
  intros [v1 H1] [v2 H2] [v3 H3] [v4 H4]. simpl. apply map_eq. intros key.
  rewrite spread_lookup. destruct (caller !! key) eqn:Hk; [reflexivity|].
  destruct (default_fields_keys key) as [H | [-> | [-> | [-> | ->]]]];
    [exact H | congruence..].
Qed.

Lemma complete_config_is_kept_witness :
  config (constructor (Some Presets.qualityFocusedConfig))
  = Presets.qualityFocusedConfig.
Proof.
  apply complete_config_is_kept; eexists; reflexivity.
Defined.

(** ** The hook *)

Lemma initializeModel_throws_first (env : Env) (f : Faults) (s : Service) (e : exn) :
  fst (initializeModel env f s) = Throw e ->
  exists cause : exn,
    Some cause
    = match at_platform f, at_dispatch f with
      | Some c, _ => Some c
      | None, Some c => Some c
      | None, None => at_delay f
      end
    /\ e = initialization_error cause
    /\ initializeModel env f s = (Throw e, s).
Proof.
  rewrite initializeModel_outcome.
  destruct f as [[p|] [d|] [t|]]; simpl; intros H; try discriminate;
    injection H as <-; eexists; (split; [reflexivity | split; reflexivity]).
Qed.

(** X16. The hook's [loadModel] never throws.  When the initialization
    fails it only records the message of the initialization error in
    [error] and leaves [isLoaded] false; and if the hook was given a
    configuration, the shared service has by then been overwritten with
    a new instance, so a model that was loaded before is gone. *)
Theorem hook_loadModel_failure
    (caller : option Gemma3nConfig) (env : Env) (f : Faults)
    (st : useGemma3n.State) (s : Service) (e : exn) :
  useGemma3n.isLoaded st = false ->
  useGemma3n.isLoading st = false ->
  fst (initializeModel env f (configure caller s)) = Throw e ->
  useGemma3n.loadModel caller env f st s
  = (Ok tt,
     {| useGemma3n.isLoaded := false;
        useGemma3n.isLoading := false;
        useGemma3n.error := Some (message_of "Unknown error occurred" e);
        useGemma3n.modelInfo := useGemma3n.modelInfo st |},
     configure caller s)
  /\ (exists cause : exn,
        Some cause
        = match at_platform f, at_dispatch f with
          | Some c, _ => Some c
          | None, Some c => Some c
          | None, None => at_delay f
          end
        /\ message_of "Unknown error occurred" e
           = "Failed to initialize Gemma 3n: " ++ exn_to_string cause)
  /\ match caller with
     | Some c => configure caller s = constructor (Some c)
     | None => configure caller s = s
     end.
Proof.
  intros Hl Hb He.
  destruct (initializeModel_throws_first env f _ e He) as (cause & Hc & -> & Hinit).
  unfold useGemma3n.loadModel. rewrite Hl, Hb, Hinit. simpl.
  split; [|split].
  - destruct st; simpl in *. now subst.
  - now exists cause.
  - destruct caller; reflexivity.
Qed.

Lemma hook_loadModel_failure_witness :
  useGemma3n.loadModel (Some Presets.qaConfig)
    {| hermes := false; navigator := None; has_window := true; has_document := true |}
    {| at_platform := None; at_dispatch := None; at_delay := Some (Error "timer") |}
    useGemma3n.initial
    {| textGenerator := Some {| platform := "web" |};
       isModelLoaded := true;
       config := spread_over_defaults default_argument |}
  = (Ok tt,
     {| useGemma3n.isLoaded := false;
        useGemma3n.isLoading := false;
        useGemma3n.error := Some "Failed to initialize Gemma 3n: Error: timer";
        useGemma3n.modelInfo := None |},
     constructor (Some Presets.qaConfig)).
Proof.
  exact (proj1 (hook_loadModel_failure (Some Presets.qaConfig)
                  {| hermes := false; navigator := None;
                     has_window := true; has_document := true |}
                  {| at_platform := None; at_dispatch := None;
                     at_delay := Some (Error "timer") |}
                  useGemma3n.initial
                  {| textGenerator := Some {| platform := "web" |};
                     isModelLoaded := true;
                     config := spread_over_defaults default_argument |}
                  (initialization_error (Error "timer"))
                  eq_refl eq_refl eq_refl)).
Defined.


Lemma hook_after_in_step (caller : option Gemma3nConfig) (c : useGemma3n.Call)
    (w : useGemma3n.State * Service) :
  hook_in_step w -> hook_in_step (useGemma3n.after caller c w).
Proof.
  destruct w as [st s]. unfold hook_in_step. simpl.
  intros (Hb & Hl & Hinv & Hinfo).
  destruct c as [env f | | prompt options d p | messages d p]; simpl.
  - unfold useGemma3n.loadModel. rewrite Hb.
    destruct (useGemma3n.isLoaded st) eqn:Hst; simpl; [now rewrite Hst|].
    assert (Hc : handle_matches_flag (configure caller s)
                 /\ isModelLoaded (configure caller s) = false).
    { destruct caller as [c|]; simpl; [|now split].
      split; [apply (constructor_matches (Some c)) | reflexivity]. }
    destruct Hc as [Hc1 Hc2]. rewrite initializeModel_outcome.
    destruct f as [[p|] [d|] [t|]]; simpl; rewrite ?Hst, ?Hc2;
      try (split; [reflexivity | split; [reflexivity | split; assumption]]).
    repeat split; eauto.
  - unfold useGemma3n.unloadModel.
    destruct (useGemma3n.isLoaded st) eqn:Hst; simpl; [|now rewrite Hst].
    destruct s as [[g|] l cfg]; simpl in *.
    + unfold handle_matches_flag; simpl.
      split; [exact Hb | split; [reflexivity | split; [|reflexivity]]].
      split; [discriminate | intros [x Hx]; discriminate].
    + subst l. unfold handle_matches_flag in Hinv. simpl in Hinv.
      destruct Hinv as [Hinv _]. destruct (Hinv eq_refl) as [x Hx].
      discriminate.
  - unfold useGemma3n.generateText.
    destruct (useGemma3n.isLoaded st) eqn:Hst; simpl; [|now rewrite Hst].
    pose proof (generateText_state prompt options d p s) as Hs.
    destruct (generateText prompt options d p s) as [[text | err] s']; simpl in *;
      subst s'; rewrite Hst; tauto.
  - unfold useGemma3n.chat.
    destruct (useGemma3n.isLoaded st) eqn:Hst; simpl; [|now rewrite Hst].
    pose proof (generateText_state (formatChatPrompt (map raw messages)) None d p s)
      as Hs.
    unfold chat.
    destruct (generateText (formatChatPrompt (map raw messages)) None d p s)
      as [[text | err] s']; simpl in *; subst s'; rewrite Hst; tauto.
Qed.

Lemma hook_run_in_step (caller : option Gemma3nConfig) (calls : list useGemma3n.Call)
    (w : useGemma3n.State * Service) :
  hook_in_step w -> hook_in_step (useGemma3n.run caller calls w).
Proof.
  revert w. induction calls as [|c calls IH]; intros w Hw; [exact Hw|].
  apply IH, hook_after_in_step, Hw.
Qed.

Lemma hook_initial_in_step (argument : option Gemma3nConfig) :
  hook_in_step (useGemma3n.initial, constructor argument).
Proof.
  unfold hook_in_step. simpl. repeat split; try discriminate.
  intros [x Hx]. discriminate.
Qed.

(** X17. On a hook that alone drives a constructed service, between
    calls: [isLoading] is false, [isLoaded] equals the loaded flag of
    the service, and [modelInfo] is set exactly when [isLoaded] is, to
    the service's current configuration with [isLoaded] true. *)
Theorem hook_tracks_service
    (caller argument : option Gemma3nConfig) (calls : list useGemma3n.Call) :
  let w := useGemma3n.run caller calls (useGemma3n.initial, constructor argument) in
  useGemma3n.isLoading (fst w) = false
  /\ useGemma3n.isLoaded (fst w) = isModelLoaded (snd w)
  /\ useGemma3n.modelInfo (fst w)
     = if useGemma3n.isLoaded (fst w)
       then Some {| isLoaded := true;
                    modelSize := get_field (config (snd w)) "modelSize";
                    info_config := config (snd w) |}
       else None.
Proof.
  intros w.
  destruct (hook_run_in_step caller calls _ (hook_initial_in_step argument))
    as (Hb & Hl & _ & Hinfo).
  auto.
Qed.

(** X18. On a hook that alone drives a constructed service,
    [generateText] and [chat] return a text exactly when [isLoaded] is
    true; otherwise they throw the hook's own not-loaded error and
    touch neither the hook state nor the service.  The service's
    not-loaded error is never seen. *)
Theorem hook_generate_outcome
    (caller argument : option Gemma3nConfig) (calls : list useGemma3n.Call)
    (prompt : string) (messages : list ChatMessage) (options : option Options)
    (delay_draw pick : Q) :
  let w := useGemma3n.run caller calls (useGemma3n.initial, constructor argument) in
  let outcome_ok (out : result string * useGemma3n.State * Service) : Prop :=
    if useGemma3n.isLoaded (fst w)
    then exists text : string,
           out = (Ok text, useGemma3n.setError None (fst w), snd w)
    else out = (Throw useGemma3n.not_loaded_error, fst w, snd w) in
  outcome_ok (useGemma3n.generateText prompt options delay_draw pick (fst w) (snd w))
  /\ outcome_ok (useGemma3n.chat messages delay_draw pick (fst w) (snd w)).
Proof.
  intros w outcome_ok. unfold outcome_ok.
  destruct (hook_run_in_step caller calls _ (hook_initial_in_step argument))
    as (_ & Hl & Hinv & _).
  fold w in Hl, Hinv.
  unfold useGemma3n.generateText, useGemma3n.chat, chat.
  destruct (useGemma3n.isLoaded (fst w)) eqn:Hst; simpl; [|split; reflexivity].
  assert (Hr : not_ready (snd w) = false).
  { apply not_ready_false. split; [apply Hinv|]; now symmetry. }
  split.
  - destruct (generateText_ready prompt options delay_draw pick (snd w) Hr)
      as [_ [text ->]]. now exists text.
  - destruct (generateText_ready (formatChatPrompt (map raw messages)) None
                delay_draw pick (snd w) Hr) as [_ [text ->]]. now exists text.
Qed.

(** ** Trimming *)

Lemma trimStart_head (s : string) :
  match trimStart s with
  | EmptyString => True
  | String c _ => is_trimmed_unit c = false
  end.
Proof.
  induction s as [|c s IH]; simpl; [exact I|].
  destruct (is_trimmed_unit c) eqn:Hc; [exact IH | exact Hc].
Qed.

Lemma trimEnd_head (c : ascii) (s : string) :
  is_trimmed_unit c = false -> exists t : string, trimEnd (String c s) = String c t.
Proof.
  intros Hc. simpl. destruct (trimEnd s); [rewrite Hc|]; eexists; reflexivity.
Qed.

Lemma trimEnd_idempotent (s : string) : trimEnd (trimEnd s) = trimEnd s.
Proof.
  induction s as [|c s IH]; [reflexivity|]. simpl.
  destruct (trimEnd s) as [|c' t] eqn:Ht.
  - destruct (is_trimmed_unit c) eqn:Hc; [reflexivity|]. simpl. now rewrite Hc.
  - change (trimEnd (String c (String c' t)))
      with (match trimEnd (String c' t) with
            | EmptyString =>
                if is_trimmed_unit c then EmptyString else String c EmptyString
            | String c'' t' => String c (String c'' t')
            end).
    now rewrite IH.
Qed.

Lemma trim_idempotent (s : string) : trim (trim s) = trim s.
Proof.
  unfold trim. pose proof (trimStart_head s) as Hh.
  destruct (trimStart s) as [|c s'] eqn:Hs; [reflexivity|].
  destruct (trimEnd_head c s' Hh) as [t Ht]. rewrite Ht.
  assert (Hst : trimStart (String c t) = String c t) by (simpl; now rewrite Hh).
  rewrite Hst, <- Ht. apply trimEnd_idempotent.
Qed.

(** ** The chat component *)

(** X19. [sendMessage] with text to send, no request pending and the
    model loaded always appends exactly two messages and clears the
    input: the user's message with the trimmed text, then one assistant
    message.  That second message holds the answer of [chat] on the
    whole history, the new message last; if [chat] throws it holds a
    fixed apology, and one [onError] report is made.  The service is
    left as it was. *)
Theorem sendMessage_appends_two
    (delay_draw pick : Q) (now1 stamp1 now2 stamp2 : Z)
    (st : Gemma3nChat.State) (s : Service) :
  trim (Gemma3nChat.inputText st) <> EmptyString ->
  Gemma3nChat.isLoading st = false ->
  Gemma3nChat.isModelLoaded st = true ->
  let user :=
    {| Gemma3nChat.id := pretty now1; Gemma3nChat.role := USER;
       Gemma3nChat.content := trim (Gemma3nChat.inputText st);
       Gemma3nChat.timestamp := stamp1 |} in
  let history :=
    map Gemma3nChat.history_entry (Gemma3nChat.messages st ++ [user]) in
  exists (events : list Event) (reply : string),
    Gemma3nChat.sendMessage delay_draw pick now1 stamp1 now2 stamp2 st s
    = (events,
       {| Gemma3nChat.messages :=
            Gemma3nChat.messages st
            ++ [ user;
                 {| Gemma3nChat.id := pretty (now2 + 1)%Z;
                    Gemma3nChat.role := ASSISTANT;
                    Gemma3nChat.content := reply;
                    Gemma3nChat.timestamp := stamp2 |} ];
          Gemma3nChat.inputText := EmptyString;
          Gemma3nChat.isLoading := false;
          Gemma3nChat.isModelLoaded := true;
          Gemma3nChat.isInitializing := Gemma3nChat.isInitializing st |},
       s)
    /\ match fst (chat history None delay_draw pick s) with
       | Ok text => reply = text /\ events = []
       | Throw e =>
           reply = "Sorry, I encountered an error while processing your request. Please try again."
           /\ events = [onError ("Failed to generate response: " ++ exn_to_string e)]
       end.
Proof.
  intros Htext Hbusy Hloaded user history.
  unfold Gemma3nChat.sendMessage.
  apply String.eqb_neq in Htext. rewrite Htext, Hbusy, Hloaded. simpl.
  fold user. fold history.
  pose proof (generateText_state (formatChatPrompt (map raw history)) None
                delay_draw pick s) as Hs.
  unfold chat in *.
  destruct (generateText (formatChatPrompt (map raw history)) None delay_draw pick s)
    as [[text | e] s']; simpl in *; subst s';
    do 2 eexists; (split; [|split; reflexivity]);
    unfold Gemma3nChat.setIsLoading, Gemma3nChat.setMessages,
      Gemma3nChat.setInputText; simpl;
    rewrite <- app_assoc, Hloaded; reflexivity.
Qed.

Lemma sendMessage_appends_two_witness :
  exists (events : list Event) (reply : string),
    Gemma3nChat.sendMessage 0 (1 # 2) 1000 1001 2000 2001
      {| Gemma3nChat.messages := [];
         Gemma3nChat.inputText :=
           String (ascii_of_nat 160) (" why? " ++ String (ascii_of_nat 9) EmptyString);
         Gemma3nChat.isLoading := false;
         Gemma3nChat.isModelLoaded := true;
         Gemma3nChat.isInitializing := false |}
      (constructor None)
    = (events,
       {| Gemma3nChat.messages :=
            [ {| Gemma3nChat.id := "1000"; Gemma3nChat.role := USER;
                 Gemma3nChat.content := "why?";
                 Gemma3nChat.timestamp := 1001 |};
              {| Gemma3nChat.id := "2001"; Gemma3nChat.role := ASSISTANT;
                 Gemma3nChat.content := reply;
                 Gemma3nChat.timestamp := 2001 |} ];
          Gemma3nChat.inputText := EmptyString;
          Gemma3nChat.isLoading := false;
          Gemma3nChat.isModelLoaded := true;
          Gemma3nChat.isInitializing := false |},
       constructor None).
Proof.
  destruct (sendMessage_appends_two 0 (1 # 2) 1000 1001 2000 2001
              {| Gemma3nChat.messages := [];
                 Gemma3nChat.inputText :=
                   String (ascii_of_nat 160)
                     (" why? " ++ String (ascii_of_nat 9) EmptyString);
                 Gemma3nChat.isLoading := false;
                 Gemma3nChat.isModelLoaded := true;
                 Gemma3nChat.isInitializing := false |}
              (constructor None)
              ltac:(vm_compute; discriminate) eq_refl eq_refl)
    as (events & reply & H & _).
  exists events, reply. exact H.
Defined.

Lemma chat_after_in_step (caller : option Gemma3nConfig) (c : Gemma3nChat.Call)
    (w : Gemma3nChat.State * Service) :
  chat_in_step w -> chat_in_step (Gemma3nChat.after caller c w).
Proof.
  destruct w as [st s]. unfold chat_in_step. simpl.
  intros (Hbusy & Hinit & Hl & Hinv & Hmsgs).
  destruct c as [env f now stamp | text | d p now1 stamp1 now2 stamp2 | now stamp];
    simpl.
  - unfold Gemma3nChat.initializeModel. rewrite Hinit, orb_false_r.
    destruct (Gemma3nChat.isModelLoaded st) eqn:Hst; simpl; [now rewrite Hst|].
    assert (Hc : handle_matches_flag (configure caller s)
                 /\ isModelLoaded (configure caller s) = false).
    { destruct caller as [c|]; simpl; [|now split].
      split; [apply (constructor_matches (Some c)) | reflexivity]. }
    destruct Hc as [Hc1 Hc2]. rewrite initializeModel_outcome.
    destruct f as [[p|] [d|] [t|]]; simpl; rewrite ?Hst, ?Hc2;
      try (split; [assumption | split; [reflexivity | split;
             [reflexivity | split; assumption]]]).
    split; [assumption | split; [reflexivity | split; [reflexivity | split]]].
    + unfold handle_matches_flag; simpl. split; eauto.
    + apply Forall_cons. split; [|apply Forall_nil; exact I].
      split; simpl; [discriminate | intros H; discriminate].
  - auto.
  - unfold Gemma3nChat.sendMessage. rewrite Hbusy, orb_false_r.
    destruct (String.eqb_spec (trim (Gemma3nChat.inputText st)) EmptyString)
      as [Hempty | Htext]; simpl; [auto|].
    destruct (Gemma3nChat.isModelLoaded st) eqn:Hst; simpl; [|now rewrite Hst].
    set (user := {| Gemma3nChat.id := pretty now1; Gemma3nChat.role := USER;
                    Gemma3nChat.content := trim (Gemma3nChat.inputText st);
                    Gemma3nChat.timestamp := stamp1 |}).
    assert (Huser : well_formed_message user).
    { split; simpl; [discriminate|]. intros _. split; [exact Htext|].
      apply trim_idempotent. }
    pose proof (generateText_state
                  (formatChatPrompt
                     (map raw (map Gemma3nChat.history_entry
                                 (Gemma3nChat.messages st ++ [user]))))
                  None d p s) as Hs.
    unfold chat.
    destruct (generateText _ None d p s) as [[text | e] s']; simpl in *; subst s';
      (split; [reflexivity | split; [assumption | split; [now rewrite Hst | split;
         [assumption|]]]]);
      rewrite !Forall_app, !Forall_singleton;
      (split; [split; [assumption | exact Huser]|]);
      (split; simpl; [discriminate | intros H; discriminate]).
  - repeat split; try assumption.
    + apply Hinv.
    + apply Hinv.
    + apply Forall_singleton. split; simpl; [discriminate | intros H; discriminate].
Qed.

Lemma chat_run_in_step (caller : option Gemma3nConfig) (calls : list Gemma3nChat.Call)
    (w : Gemma3nChat.State * Service) :
  chat_in_step w -> chat_in_step (Gemma3nChat.run caller calls w).
Proof.
  revert w. induction calls as [|c calls IH]; intros w Hw; [exact Hw|].
  apply IH, chat_after_in_step, Hw.
Qed.

Lemma chat_initial_in_step (argument : option Gemma3nConfig) :
  chat_in_step (Gemma3nChat.initial, constructor argument).
Proof.
  unfold chat_in_step. simpl.
  repeat split; try discriminate; try (intros [x Hx]; discriminate).
  apply Forall_nil. exact I.
Qed.

(** X20. On a chat component that alone drives a constructed service,
    between calls: no request is pending, the component's loaded flag
    equals the service's, and the conversation holds no system message
    and no user message that is empty or has whitespace at either
    end. *)
Theorem chat_component_invariant
    (caller argument : option Gemma3nConfig) (calls : list Gemma3nChat.Call) :
  let w := Gemma3nChat.run caller calls (Gemma3nChat.initial, constructor argument) in
  Gemma3nChat.isLoading (fst w) = false
  /\ Gemma3nChat.isInitializing (fst w) = false
  /\ Gemma3nChat.isModelLoaded (fst w) = isModelLoaded (snd w)
  /\ (forall m : Gemma3nChat.Message,
        m ∈ Gemma3nChat.messages (fst w) ->
        Gemma3nChat.role m <> SYSTEM
        /\ (Gemma3nChat.role m = USER ->
            Gemma3nChat.content m <> EmptyString
            /\ trim (Gemma3nChat.content m) = Gemma3nChat.content m)).
Proof.
  intros w.
  destruct (chat_run_in_step caller calls _ (chat_initial_in_step argument))
    as (Hbusy & Hinit & Hl & _ & Hmsgs).
  repeat split; try assumption;
    rewrite Forall_forall in Hmsgs; now apply Hmsgs.
Qed.

(** X21. On a chat component that alone drives a constructed service,
    [sendMessage] never reports an error: whenever it sends, the
    service is loaded, so the apology is never shown. *)
Theorem chat_component_never_apologises
    (caller argument : option Gemma3nConfig) (calls : list Gemma3nChat.Call)
    (delay_draw pick : Q) (now1 stamp1 now2 stamp2 : Z) :
  let w := Gemma3nChat.run caller calls (Gemma3nChat.initial, constructor argument) in
  fst (fst (Gemma3nChat.sendMessage delay_draw pick now1 stamp1 now2 stamp2
              (fst w) (snd w))) = [].
Proof.
  intros w.
  destruct (chat_run_in_step caller calls _ (chat_initial_in_step argument))
    as (Hbusy & _ & Hl & Hinv & _).
  fold w in Hbusy, Hl, Hinv.
  unfold Gemma3nChat.sendMessage. rewrite Hbusy, orb_false_r.
  destruct (String.eqb (trim (Gemma3nChat.inputText (fst w))) EmptyString);
    simpl; [reflexivity|].
  destruct (Gemma3nChat.isModelLoaded (fst w)) eqn:Hst; simpl; [|reflexivity].
  assert (Hr : not_ready (snd w) = false).
  { apply not_ready_false. split; [apply Hinv|]; now symmetry. }
  unfold chat.
  match goal with
  | |- context [generateText ?pr None delay_draw pick (snd w)] =>
      destruct (generateText_ready pr None delay_draw pick (snd w) Hr)
        as [_ [text ->]]
  end.
  reflexivity.
Qed.

(** X22. When the initialization fails, the chat component's
    [initializeModel] leaves its state as it was, adds no message, and
    reports one message twice, to [onError] and in an alert: the
    initialization error, wrapped a second time.  If the component was
    given a configuration, the shared service has been overwritten with
    a new instance. *)
Theorem chat_component_initialize_failure
    (caller : option Gemma3nConfig) (env : Env) (f : Faults) (now stamp : Z)
    (st : Gemma3nChat.State) (s : Service) (e : exn) :
  Gemma3nChat.isModelLoaded st = false ->
  Gemma3nChat.isInitializing st = false ->
  fst (initializeModel env f (configure caller s)) = Throw e ->
  exists cause : exn,
    let report :=
      "Failed to load model: Error: Failed to initialize Gemma 3n: "
        ++ exn_to_string cause in
    Some cause
    = match at_platform f, at_dispatch f with
      | Some c, _ => Some c
      | None, Some c => Some c
      | None, None => at_delay f
      end
    /\ Gemma3nChat.initializeModel caller env f now stamp st s
       = ([onError report; Alert "Error" report], st, configure caller s).
Proof.
  intros Hl Hi He.
  destruct (initializeModel_throws_first env f _ e He) as (cause & Hc & -> & Hinit).
  exists cause. split; [exact Hc|]. unfold Gemma3nChat.initializeModel.
  rewrite Hl, Hi, Hinit. simpl.
  destruct st; simpl in *. now subst.
Qed.

Lemma chat_component_initialize_failure_witness :
  Gemma3nChat.initializeModel (Some Presets.mobileOptimizedConfig)
    {| hermes := true; navigator := Some (Some "Android 14");
       has_window := false; has_document := false |}
    {| at_platform := None; at_dispatch := None; at_delay := Some (Error "timer") |}
    1000 1001 Gemma3nChat.initial (constructor None)
  = ([onError "Failed to load model: Error: Failed to initialize Gemma 3n: Error: timer";
      Alert "Error"
        "Failed to load model: Error: Failed to initialize Gemma 3n: Error: timer"],
     Gemma3nChat.initial,
     constructor (Some Presets.mobileOptimizedConfig)).
Proof.
  destruct (chat_component_initialize_failure (Some Presets.mobileOptimizedConfig)
              {| hermes := true; navigator := Some (Some "Android 14");
                 has_window := false; has_document := false |}
              {| at_platform := None; at_dispatch := None;
                 at_delay := Some (Error "timer") |}
              1000 1001 Gemma3nChat.initial (constructor None)
              (initialization_error (Error "timer")) eq_refl eq_refl eq_refl)
    as (cause & Hc & H).
  simpl in Hc. injection Hc as ->. exact H.
Defined.

(** ** The example component *)

(** X23. [handleLoadModel] shows the success alert also when loading
    failed: the hook swallows the initialization error, so after the
    alert [isLoaded] is false and the failure is only in [error]. *)
Theorem handleLoadModel_alerts_success_on_failure
    (env : Env) (f : Faults) (hook : useGemma3n.State) (s : Service) :
  useGemma3n.isLoaded hook = false ->
  useGemma3n.isLoading hook = false ->
  at_platform f <> None \/ at_dispatch f <> None \/ at_delay f <> None ->
  exists message : string,
    SimpleGemmaExample.handleLoadModel env f hook s
    = ([Alert "Success" "Gemma 3n model loaded successfully!"],
       {| useGemma3n.isLoaded := false;
          useGemma3n.isLoading := false;
          useGemma3n.error := Some message;
          useGemma3n.modelInfo := useGemma3n.modelInfo hook |},
       constructor (Some SimpleGemmaExample.hook_config)).
Proof.
  intros Hl Hb Hfault.
  unfold SimpleGemmaExample.handleLoadModel, useGemma3n.loadModel.
  rewrite Hl, Hb. simpl. rewrite initializeModel_outcome.
  destruct hook as [l b e info]; simpl in *; subst.
  destruct f as [[p|] [d|] [t|]]; simpl in *;
    try (destruct Hfault as [H | [H | H]]; congruence);
    eexists; reflexivity.
Qed.

Lemma handleLoadModel_alerts_success_on_failure_witness :
  exists message : string,
    SimpleGemmaExample.handleLoadModel
      {| hermes := true; navigator := None; has_window := false; has_document := false |}
      {| at_platform := None; at_dispatch := Some (Error "native"); at_delay := None |}
      useGemma3n.initial (constructor None)
    = ([Alert "Success" "Gemma 3n model loaded successfully!"],
       {| useGemma3n.isLoaded := false;
          useGemma3n.isLoading := false;
          useGemma3n.error := Some message;
          useGemma3n.modelInfo := None |},
       constructor (Some SimpleGemmaExample.hook_config)).
Proof.
  exact (handleLoadModel_alerts_success_on_failure
           {| hermes := true; navigator := None;
              has_window := false; has_document := false |}
           {| at_platform := None; at_dispatch := Some (Error "native");
              at_delay := None |}
           useGemma3n.initial (constructor None) eq_refl eq_refl
           ltac:(right; left; discriminate)).
Defined.
